(** * Frontend driver of the compiler: [CompilerInstance::setup] and
    [CompilerInstance::doIt] of lib/Frontend/Frontend.cpp

    The two methods are embedded as functions on an explicit
    [CompilerInstance] state.  Memory that holds [llvm::MemoryBuffer]
    objects is a finite map from addresses to buffers, so that the copies
    made by [setup] and the buffers the caller keeps can be told apart.
    The subsystems the driver calls into (parser, lexer, importer
    constructor, file system) are the fields of the [Subsystems] class;
    calls to the type checker and to the delayed parser are recorded in a
    trace of events. *)

From Stdlib Require Import Ascii String.
From stdpp Require Import base option list gmap strings.

Local Open Scope string_scope.
Local Open Scope list_scope.

(** ** Data *)

(** [SourceFile::SourceKind]. *)
Inductive SourceKind := Library | Main | REPL | SIL.

#[global] Instance SourceKind_eq_dec : EqDecision SourceKind.
Proof. solve_decision. Defined.

(** [llvm::MemoryBuffer]: the text and the name it is displayed under. *)
Record MemoryBuffer := mkMemoryBuffer {
  getBuffer : string;
  getBufferIdentifier : string
}.

#[global] Instance MemoryBuffer_eq_dec : EqDecision MemoryBuffer.
Proof. solve_decision. Defined.

(** The diagnostics [setup] emits, each at an invalid [SourceLoc]. *)
Inductive Diag :=
| error_clang_importer_not_linked_in
| error_clang_importer_create_fail
| error_open_input_file (File : string) (Message : string).

(** The arguments [setup] hands to the Clang importer constructor. *)
Record ClangImporterArgs := mkClangImporterArgs {
  argSDKPath : string;
  argTargetTriple : string;
  argRuntimeIncludePath : string;
  argClangModuleCachePath : string;
  argImportSearchPaths : list string;
  argFrameworkSearchPaths : list string;
  argOverrideResourceDir : string;
  argExtraClangArgs : list string
}.

(** The module loaders [setup] can install. *)
Inductive ModuleLoader :=
| SourceLoader (flag : bool)
| SerializedModuleLoader
| ClangImporter (args : ClangImporterArgs).

(** [CompilerInvocation], the fields the driver reads.  Buffers of the
    invocation are pointers into caller memory; the buffer of the code
    completion point may be null. *)
Record CompilerInvocation := mkCompilerInvocation {
  getImportSearchPaths : list string;
  getFrameworkSearchPaths : list string;
  getSDKPath : string;
  getTargetTriple : string;
  getRuntimeIncludePath : string;
  getClangModuleCachePath : string;
  getExtraClangArgs : list string;
  getModuleName : string;
  getInputKind : SourceKind;
  getParseStdlib : bool;
  getParseOnly : bool;
  isImmediate : bool;
  isDelayedFunctionBodyParsing : bool;
  getCodeCompletionPoint : option nat * nat;
  getInputFilenames : list string;
  getInputBuffers : list nat
}.

(** Modelled from the spec: [CompilerInvocation::isCodeCompletion],
    declared outside Frontend.cpp, tells whether "a code-completion
    request (buffer + offset) is present": the buffer is not null. *)
Definition isCodeCompletion (Invok : CompilerInvocation) : bool :=
  bool_decide (is_Some (fst (getCodeCompletionPoint Invok))).

(** [SourceManager]: the buffers it owns, by address and in the order
    they were added, the code completion point and the hashbang buffer. *)
Record SourceManager := mkSourceManager {
  Buffers : list nat;
  CodeCompletionPoint : option (nat * nat);
  HashbangBufferID : option nat
}.

(** [SourceFile]: its kind and its top-level declarations. *)
Record SourceFile (D : Type) := mkSourceFile {
  Kind : SourceKind;
  HasBuiltinModuleAccess : bool;
  Decls : list D
}.
Arguments mkSourceFile {D} _ _ _.
Arguments Kind {D} _.
Arguments HasBuiltinModuleAccess {D} _.
Arguments Decls {D} _.

(** [TranslationUnit]: a named module and its source files. *)
Record TranslationUnit (D : Type) := mkTranslationUnit {
  Name : string;
  SourceFiles : list (SourceFile D)
}.
Arguments mkTranslationUnit {D} _ _.
Arguments Name {D} _.
Arguments SourceFiles {D} _.

(** [DelayedParsingCallbacks], the two implementations [doIt] chooses
    from; the completion one is built from the completion location. *)
Inductive DelayedParsingCallbacks :=
| CodeCompleteDelayedCallbacks (Loc : option (nat * nat))
| AlwaysDelayedCallbacks.

(** What one call of the parser hands back: the declarations it appended
    to the source file, the [Done] flag, and the parser states it
    updated. *)
Record ParseResult (D P S : Type) := mkParseResult {
  NewDecls : list D;
  IsDone : bool;
  SILOut : option S;
  PersistentOut : P
}.
Arguments mkParseResult {D P S} _ _ _ _.
Arguments NewDecls {D P S} _.
Arguments IsDone {D P S} _.
Arguments SILOut {D P S} _.
Arguments PersistentOut {D P S} _.

(** ** The subsystems the driver calls

    None of these is defined in Frontend.cpp; the driver is verified for
    every implementation of them. *)
Class Subsystems := {
  (** AST declarations, [PersistentParserState], [SILModule] and
      [SILParserState]. *)
  Decl : Type;
  PersistentParserState : Type;
  newPersistentParserState : PersistentParserState;
  SILModule : Type;
  createEmptyModule : SILModule;
  SILParserState : Type;
  newSILParserState : option SILModule -> SILParserState;
  (** [Lexer::isIdentifier]. *)
  isIdentifier : string -> bool;
  (** [swift::getClangImporterCtor]: absent when the importer is not
      linked in; the constructor itself may fail. *)
  getClangImporterCtor : option (ClangImporterArgs -> bool);
  (** [llvm::MemoryBuffer::getFileOrSTDIN]: the buffer read, or the
      message of the error code. *)
  getFileOrSTDIN : string -> MemoryBuffer + string;
  (** [swift::parseIntoTranslationUnit]: reads the buffer with the given
      id through the source manager. *)
  parseIntoTranslationUnit :
    SourceManager -> gmap nat MemoryBuffer ->
    SourceFile Decl -> nat -> option SILParserState ->
    PersistentParserState -> option DelayedParsingCallbacks ->
    ParseResult Decl PersistentParserState SILParserState
}.

(** How a method leaves: by returning, by a failed [assert], by a use of
    an invalid pointer, or not within the given number of loop
    iterations. *)
Inductive Exit (R : Type) :=
| Return (r : R)
| AssertionFailed (msg : string)
| Undefined
| OutOfFuel.
Arguments Return {R} _.
Arguments AssertionFailed {R} _.
Arguments Undefined {R}.
Arguments OutOfFuel {R}.

Section Driver.
Context `{Sub : Subsystems}.

(** ** State *)

(** [ASTContext]: search paths, module loaders in the order they were
    added, the [LoadedModules] string map, and the modules allocated in
    the context (a [TranslationUnit*] is an index into [Modules]). *)
Record ASTContext := mkASTContext {
  ImportSearchPaths : list string;
  ModuleLoaders : list ModuleLoader;
  LoadedModules : gmap string nat;
  Modules : list (TranslationUnit Decl)
}.

(** [CompilerInstance], together with the memory its buffers live in. *)
Record CompilerInstance := mkCompilerInstance {
  Invocation : CompilerInvocation;
  Memory : gmap nat MemoryBuffer;
  SourceMgr : SourceManager;
  Diagnostics : list Diag;
  Context : option ASTContext;
  SML : option ModuleLoader;
  TheSILModule : option SILModule;
  BufferIDs : list nat;
  TU : option nat
}.

Definition setInvocation (v : CompilerInvocation) (ci : CompilerInstance) :=
  mkCompilerInstance v (Memory ci) (SourceMgr ci) (Diagnostics ci)
    (Context ci) (SML ci) (TheSILModule ci) (BufferIDs ci) (TU ci).
Definition setMemory (v : gmap nat MemoryBuffer) (ci : CompilerInstance) :=
  mkCompilerInstance (Invocation ci) v (SourceMgr ci) (Diagnostics ci)
    (Context ci) (SML ci) (TheSILModule ci) (BufferIDs ci) (TU ci).
Definition setSourceMgr (v : SourceManager) (ci : CompilerInstance) :=
  mkCompilerInstance (Invocation ci) (Memory ci) v (Diagnostics ci)
    (Context ci) (SML ci) (TheSILModule ci) (BufferIDs ci) (TU ci).
Definition setDiagnostics (v : list Diag) (ci : CompilerInstance) :=
  mkCompilerInstance (Invocation ci) (Memory ci) (SourceMgr ci) v
    (Context ci) (SML ci) (TheSILModule ci) (BufferIDs ci) (TU ci).
Definition setContext (v : option ASTContext) (ci : CompilerInstance) :=
  mkCompilerInstance (Invocation ci) (Memory ci) (SourceMgr ci)
    (Diagnostics ci) v (SML ci) (TheSILModule ci) (BufferIDs ci) (TU ci).
Definition setSML (v : option ModuleLoader) (ci : CompilerInstance) :=
  mkCompilerInstance (Invocation ci) (Memory ci) (SourceMgr ci)
    (Diagnostics ci) (Context ci) v (TheSILModule ci) (BufferIDs ci) (TU ci).
Definition setTheSILModule (v : option SILModule) (ci : CompilerInstance) :=
  mkCompilerInstance (Invocation ci) (Memory ci) (SourceMgr ci)
    (Diagnostics ci) (Context ci) (SML ci) v (BufferIDs ci) (TU ci).
Definition setBufferIDs (v : list nat) (ci : CompilerInstance) :=
  mkCompilerInstance (Invocation ci) (Memory ci) (SourceMgr ci)
    (Diagnostics ci) (Context ci) (SML ci) (TheSILModule ci) v (TU ci).
Definition setTU (v : option nat) (ci : CompilerInstance) :=
  mkCompilerInstance (Invocation ci) (Memory ci) (SourceMgr ci)
    (Diagnostics ci) (Context ci) (SML ci) (TheSILModule ci) (BufferIDs ci) v.

(** [Diagnostics.diagnose(SourceLoc(), d)]. *)
Definition diagnose (d : Diag) (ci : CompilerInstance) : CompilerInstance :=
  setDiagnostics (Diagnostics ci ++ [d]) ci.

(** Modelled from the spec: [Context->addModuleLoader(L)], declared
    outside Frontend.cpp.  The loader chain "is an ordered sequence,
    append-only during setup". *)
Definition addModuleLoader (L : ModuleLoader) (ctx : ASTContext) : ASTContext :=
  mkASTContext (ImportSearchPaths ctx) (ModuleLoaders ctx ++ [L])
    (LoadedModules ctx) (Modules ctx).

Definition pushImportSearchPath (p : string) (ctx : ASTContext) : ASTContext :=
  mkASTContext (ImportSearchPaths ctx ++ [p]) (ModuleLoaders ctx)
    (LoadedModules ctx) (Modules ctx).

(** A new [llvm::MemoryBuffer] object: it is placed at an address no
    live buffer has. *)
Definition newMemoryBuffer (b : MemoryBuffer) (ci : CompilerInstance)
  : nat * CompilerInstance :=
  let p := fresh (dom (Memory ci)) in
  (p, setMemory (<[p := b]> (Memory ci)) ci).

(** Modelled from the spec: [SourceMgr->AddNewSourceBuffer], declared
    outside Frontend.cpp.  The registry "assigns a monotonically
    increasing integer id to each ingested buffer, preserving
    registration order": the id is the number of buffers already owned,
    and the source manager takes the pointer it is given. *)
Definition AddNewSourceBuffer (p : nat) (ci : CompilerInstance)
  : nat * CompilerInstance :=
  let sm := SourceMgr ci in
  (length (Buffers sm),
   setSourceMgr (mkSourceManager (Buffers sm ++ [p])
                   (CodeCompletionPoint sm) (HashbangBufferID sm)) ci).

(** Modelled from the spec: [SourceMgr.setCodeCompletionPoint], declared
    outside Frontend.cpp.  The registry "holds no more than one
    completion point per session" and setting it "fails if already set":
    [None] is that failure. *)
Definition setCodeCompletionPoint (BufferID Offset : nat) (ci : CompilerInstance)
  : option CompilerInstance :=
  let sm := SourceMgr ci in
  match CodeCompletionPoint sm with
  | Some _ => None
  | None =>
      Some (setSourceMgr (mkSourceManager (Buffers sm)
                            (Some (BufferID, Offset)) (HashbangBufferID sm)) ci)
  end.

Definition setHashbangBufferID (BufferID : nat) (ci : CompilerInstance)
  : CompilerInstance :=
  let sm := SourceMgr ci in
  setSourceMgr (mkSourceManager (Buffers sm) (CodeCompletionPoint sm)
                  (Some BufferID)) ci.

(** ** Control flow of a method body *)

(** A statement either falls through to the next one or leaves the
    method; the state travels with both. *)
Inductive Flow (R : Type) :=
| Next (ci : CompilerInstance)
| Leave (e : Exit R) (ci : CompilerInstance).
Arguments Next {R} _.
Arguments Leave {R} _ _.

Definition andThen {R} (m : Flow R) (k : CompilerInstance -> Flow R) : Flow R :=
  match m with
  | Next ci => k ci
  | Leave e ci => Leave e ci
  end.

Notation "m >>> k" := (andThen m k) (at level 61, left associativity).

(** ** [CompilerInstance::setup] *)

(** Lines 37-46: the invocation is stored, a new context replaces the old
    one and receives the import search paths and the two default
    loaders. *)
Definition setupContext (Invok : CompilerInvocation) (ci : CompilerInstance)
  : CompilerInstance :=
  let ctx := mkASTContext (getImportSearchPaths Invok) [] ∅ [] in
  let ctx := addModuleLoader (SourceLoader (negb (isImmediate Invok))) ctx in
  let ctx := addModuleLoader SerializedModuleLoader ctx in
  setSML (Some SerializedModuleLoader)
    (setContext (Some ctx) (setInvocation Invok ci)).

Definition clangImporterArgs (Invok : CompilerInvocation) : ClangImporterArgs :=
  mkClangImporterArgs (getSDKPath Invok) (getTargetTriple Invok)
    (getRuntimeIncludePath Invok) (getClangModuleCachePath Invok)
    (getImportSearchPaths Invok) (getFrameworkSearchPaths Invok)
    "" (getExtraClangArgs Invok).

(** Lines 50-71: with an SDK, the Clang importer is wired up. *)
Definition setupClangImporter (ci : CompilerInstance) : Flow bool :=
  let Invok := Invocation ci in
  if bool_decide (getSDKPath Invok = "") then Next ci
  else
    match getClangImporterCtor with
    | None => Leave (Return true) (diagnose error_clang_importer_not_linked_in ci)
    | Some ImporterCtor =>
        let args := clangImporterArgs Invok in
        if ImporterCtor args
        then Next (setContext (addModuleLoader (ClangImporter args) <$> Context ci) ci)
        else Leave (Return true) (diagnose error_clang_importer_create_fail ci)
    end.

(** Line 74. *)
Definition setupRuntimeIncludePath (ci : CompilerInstance) : Flow bool :=
  Next (setContext
          (pushImportSearchPath (getRuntimeIncludePath (Invocation ci))
             <$> Context ci) ci).

(** Line 76. *)
Definition setupAssertModuleName (ci : CompilerInstance) : Flow bool :=
  if isIdentifier (getModuleName (Invocation ci)) then Next ci
  else Leave (AssertionFailed "Lexer::isIdentifier(Invocation.getModuleName())") ci.

(** [CompilerInstance::createSILModule]. *)
Definition createSILModule (ci : CompilerInstance) : CompilerInstance :=
  setTheSILModule (Some createEmptyModule) ci.

(** Lines 78-79. *)
Definition setupSILModule (ci : CompilerInstance) : Flow bool :=
  if bool_decide (getInputKind (Invocation ci) = SIL)
  then Next (createSILModule ci) else Next ci.

(** [BufferIDs.push_back(SourceMgr->AddNewSourceBuffer(Buf, ...))] for
    a buffer object [b] that was just created: it is what lines 105-106
    do with the file read and lines 111-114 with the copy. *)
Definition pushNewSourceBuffer (b : MemoryBuffer) (ci : CompilerInstance)
  : nat * CompilerInstance :=
  let '(q, ci) := newMemoryBuffer b ci in
  let '(BufferID, ci) := AddNewSourceBuffer q ci in
  (BufferID, setBufferIDs (BufferIDs ci ++ [BufferID]) ci).

(** [llvm::MemoryBuffer::getMemBufferCopy(Buf->getBuffer(),
    Buf->getBufferIdentifier())], handed to the source manager; the id
    comes back with the state.  Reading through a pointer to no buffer is
    undefined. *)
Definition addBufferCopy (Buf : nat) (ci : CompilerInstance)
  : option (nat * CompilerInstance) :=
  match Memory ci !! Buf with
  | None => None
  | Some MemBuf =>
      Some (pushNewSourceBuffer
              (mkMemoryBuffer (getBuffer MemBuf) (getBufferIdentifier MemBuf)) ci)
  end.

(** Lines 81-93. *)
Definition setupCodeCompletion (ci : CompilerInstance) : Flow bool :=
  let CodeCompletePoint := getCodeCompletionPoint (Invocation ci) in
  match fst CodeCompletePoint with
  | None => Next ci
  | Some MemBuf =>
      match addBufferCopy MemBuf ci with
      | None => Leave Undefined ci
      | Some (CodeCompletionBufferID, ci) =>
          match setCodeCompletionPoint CodeCompletionBufferID
                  (snd CodeCompletePoint) ci with
          | Some ci => Next ci
          | None => Leave (AssertionFailed "code completion point already set") ci
          end
      end
  end.

(** Lines 95-107. *)
Fixpoint setupInputFiles (Files : list string) (ci : CompilerInstance)
  : Flow bool :=
  match Files with
  | [] => Next ci
  | File :: Files =>
      match getFileOrSTDIN File with
      | inr Err => Leave (Return true) (diagnose (error_open_input_file File Err) ci)
      | inl InputFile =>
          setupInputFiles Files (snd (pushNewSourceBuffer InputFile ci))
      end
  end.

(** Lines 109-115. *)
Fixpoint setupInputBuffers (Bufs : list nat) (ci : CompilerInstance)
  : Flow bool :=
  match Bufs with
  | [] => Next ci
  | Buf :: Bufs =>
      match addBufferCopy Buf ci with
      | None => Leave Undefined ci
      | Some (_, ci) => setupInputBuffers Bufs ci
      end
  end.

(** Lines 37-79: everything [setup] does before it touches a buffer. *)
Definition setupConfiguration (Invok : CompilerInvocation) (ci : CompilerInstance)
  : Flow bool :=
  Next (setupContext Invok ci)
    >>> setupClangImporter
    >>> setupRuntimeIncludePath
    >>> setupAssertModuleName
    >>> setupSILModule.

(** Lines 37-93: everything [setup] does before it acquires input
    files. *)
Definition setupBeforeInputs (Invok : CompilerInvocation) (ci : CompilerInstance)
  : Flow bool :=
  setupConfiguration Invok ci >>> setupCodeCompletion.

Definition setupFlow (Invok : CompilerInvocation) (ci : CompilerInstance)
  : Flow bool :=
  setupBeforeInputs Invok ci
    >>> (fun ci => setupInputFiles (getInputFilenames (Invocation ci)) ci)
    >>> (fun ci => setupInputBuffers (getInputBuffers (Invocation ci)) ci).

(** [setup] returns [false] when it reaches its end. *)
Definition setup (Invok : CompilerInvocation) (ci : CompilerInstance)
  : Exit bool * CompilerInstance :=
  match setupFlow Invok ci with
  | Next ci => (Return false, ci)
  | Leave e ci => (e, ci)
  end.

(** ** [CompilerInstance::doIt] *)

(** The calls [doIt] makes into the parser, the type checker and the
    delayed parser, in the order they happen.  A type-checking call is
    recorded with the source file as it is at the call and the index of
    the first declaration to check. *)
Inductive Event :=
| ParseCall (BufferID : nat)
| TypeCheckCall (SF : SourceFile Decl) (StartElem : nat)
| DelayedParsingCall.

(** The locals of [doIt] that the parser works on, and the calls made so
    far. *)
Record ParserRun := mkParserRun {
  SingleInputFile : SourceFile Decl;
  PersistentState : PersistentParserState;
  Trace : list Event
}.

(** A call of [parseIntoTranslationUnit] on [SingleInputFile] and the
    buffer [BufferID], with [PersistentState] and the callbacks.
    Modelled from the spec: the parser, defined outside Frontend.cpp,
    produces "a batch of zero or more newly parsed top-level declarations
    and a done flag" and changes the file by "declaration appends" only:
    the new declarations go to the end of the file. *)
Definition callParser (ci : CompilerInstance)
    (DelayedCB : option DelayedParsingCallbacks)
    (SIL : option SILParserState) (BufferID : nat) (r : ParserRun)
  : bool * option SILParserState * ParserRun :=
  let SF := SingleInputFile r in
  let res := parseIntoTranslationUnit (SourceMgr ci) (Memory ci) SF BufferID
               SIL (PersistentState r) DelayedCB in
  (IsDone res, SILOut res,
   mkParserRun
     (mkSourceFile (Kind SF) (HasBuiltinModuleAccess SF) (Decls SF ++ NewDecls res))
     (PersistentOut res)
     (Trace r ++ [ParseCall BufferID])).

(** A call of [performTypeChecking] on [SingleInputFile], from
    [StartElem] on.  Modelled from the spec: the type checker, defined
    outside Frontend.cpp, "marks declarations checked, may attach
    diagnostics" and makes no "structural mutation": the call is recorded
    and the declarations stay as they are. *)
Definition performTypeChecking (StartElem : nat) (r : ParserRun) : ParserRun :=
  mkParserRun (SingleInputFile r) (PersistentState r)
    (Trace r ++ [TypeCheckCall (SingleInputFile r) StartElem]).

(** A call of [performDelayedParsing], defined outside Frontend.cpp: it
    parses bodies that were skipped and adds no top-level declaration;
    the call is recorded. *)
Definition performDelayedParsing (r : ParserRun) : ParserRun :=
  mkParserRun (SingleInputFile r) (PersistentState r)
    (Trace r ++ [DelayedParsingCall]).

(** Lines 144-150: every buffer is parsed in turn; the result is [false]
    when the assertion on [Done] fails, and the loop stops there. *)
Fixpoint parseAll (ci : CompilerInstance)
    (DelayedCB : option DelayedParsingCallbacks)
    (IDs : list nat) (r : ParserRun) : bool * ParserRun :=
  match IDs with
  | [] => (true, r)
  | BufferID :: IDs =>
      let '(Done, _, r) := callParser ci DelayedCB None BufferID r in
      if Done then parseAll ci DelayedCB IDs r else (false, r)
  end.

(** The locals of the pump loop of lines 173-186. *)
Record Pump := mkPump {
  Parsed : ParserRun;
  SILContext : SILParserState;
  CurTUElem : nat;
  Done : bool
}.

(** The body of the [do] loop, lines 180-185. *)
Definition pumpOnce (ci : CompilerInstance)
    (DelayedCB : option DelayedParsingCallbacks) (BufferID : nat) (p : Pump)
  : Pump :=
  let SIL := match TheSILModule ci with
             | Some _ => Some (SILContext p)
             | None => None
             end in
  let '(Done, SIL', r) := callParser ci DelayedCB SIL BufferID (Parsed p) in
  let SILContext' := match TheSILModule ci, SIL' with
                     | Some _, Some s => s
                     | _, _ => SILContext p
                     end in
  let r := if getParseOnly (Invocation ci) then r
           else performTypeChecking (CurTUElem p) r in
  mkPump r SILContext' (length (Decls (SingleInputFile r))) Done.

(** The [do ... while (!Done)] loop, given the number of iterations it
    may take: the state it stops in, and whether the loop was left. *)
Fixpoint pump (fuel : nat) (ci : CompilerInstance)
    (DelayedCB : option DelayedParsingCallbacks) (BufferID : nat) (p : Pump)
  : bool * Pump :=
  match fuel with
  | 0 => (false, p)
  | S fuel =>
      let p := pumpOnce ci DelayedCB BufferID p in
      if Done p then (true, p) else pump fuel ci DelayedCB BufferID p
  end.

(** A new [TranslationUnit] named [ID], allocated in the context: the
    pointer is the index of the new module. *)
Definition newTranslationUnit (ID : string) (ctx : ASTContext) : nat * ASTContext :=
  (length (Modules ctx),
   mkASTContext (ImportSearchPaths ctx) (ModuleLoaders ctx) (LoadedModules ctx)
     (Modules ctx ++ [mkTranslationUnit ID []])).

(** [Context->LoadedModules[Key] = M]: the subscript of the string map
    finds the entry of [Key] or makes one, and the assignment stores [M]
    in it. *)
Definition setLoadedModule (Key : string) (M : nat) (ctx : ASTContext) : ASTContext :=
  mkASTContext (ImportSearchPaths ctx) (ModuleLoaders ctx)
    (<[Key := M]> (LoadedModules ctx)) (Modules ctx).

(** [TU->addSourceFile(SF)]. *)
Definition addSourceFile (M : nat) (SF : SourceFile Decl) (ctx : ASTContext)
  : ASTContext :=
  mkASTContext (ImportSearchPaths ctx) (ModuleLoaders ctx) (LoadedModules ctx)
    (alter (fun t => mkTranslationUnit (Name t) (SourceFiles t ++ [SF])) M
       (Modules ctx)).

(** [SingleInputFile] is the first file of the unit: what the parser
    appended to it is seen through the unit. *)
Definition storeSingleInputFile (r : ParserRun) (ci : CompilerInstance)
  : CompilerInstance :=
  match TU ci, Context ci with
  | Some M, Some ctx =>
      setContext
        (Some (mkASTContext (ImportSearchPaths ctx) (ModuleLoaders ctx)
                 (LoadedModules ctx)
                 (alter (fun t => mkTranslationUnit (Name t)
                                    (<[0 := SingleInputFile r]> (SourceFiles t)))
                    M (Modules ctx)))) ci
  | _, _ => ci
  end.

(** What a run of [doIt] leaves behind. *)
Record Ran := mkRan {
  exit : Exit unit;
  instance : CompilerInstance;
  trace : list Event
}.

Definition leave (e : Exit unit) (r : ParserRun) (ci : CompilerInstance) : Ran :=
  mkRan e (storeSingleInputFile r ci) (Trace r).

(** Lines 132-138. *)
Definition selectDelayedCB (ci : CompilerInstance) : option DelayedParsingCallbacks :=
  if isCodeCompletion (Invocation ci)
  then Some (CodeCompleteDelayedCallbacks (CodeCompletionPoint (SourceMgr ci)))
  else if isDelayedFunctionBodyParsing (Invocation ci)
       then Some AlwaysDelayedCallbacks
       else None.

(** Lines 156-159 and 188-191. *)
Definition delayedParsing (DelayedCB : option DelayedParsingCallbacks)
    (r : ParserRun) : ParserRun :=
  match DelayedCB with
  | Some _ => performDelayedParsing r
  | None => r
  end.

(** Lines 121-128: the translation unit is created, registered under
    the module name, and given its one source file. *)
Definition startTranslationUnit (ctx : ASTContext) (ci : CompilerInstance)
  : CompilerInstance * ParserRun :=
  let ID := getModuleName (Invocation ci) in
  let '(M, ctx) := newTranslationUnit ID ctx in
  let ctx := setLoadedModule ID M ctx in
  let SF := mkSourceFile (getInputKind (Invocation ci))
              (getParseStdlib (Invocation ci)) [] in
  let ctx := addSourceFile M SF ctx in
  (setTU (Some M) (setContext (Some ctx) ci),
   mkParserRun SF newPersistentParserState []).

(** Lines 168-169. *)
Definition markHashbang (BufferID : nat) (ci : CompilerInstance) : CompilerInstance :=
  if bool_decide (getInputKind (Invocation ci) = Main)
  then setHashbangBufferID BufferID ci else ci.

(** Lines 171-174: the locals the pump loop starts from.  [Done] is not
    initialised and is written before it is read. *)
Definition pumpStart (ci : CompilerInstance) (r : ParserRun) : Pump :=
  mkPump r (newSILParserState (TheSILModule ci)) 0 false.

(** Lines 129-191: what [doIt] does once the translation unit exists,
    with the number of iterations the pump loop may take.  The result is
    the way [doIt] leaves, the parser's locals and the instance. *)
Definition parseAndCheck (fuel : nat) (ci : CompilerInstance) (r : ParserRun)
  : Exit unit * ParserRun * CompilerInstance :=
  let Kind := getInputKind (Invocation ci) in
  if bool_decide (Kind = REPL) then (Return tt, r, ci)
  else
    let DelayedCB := selectDelayedCB ci in
    if bool_decide (Kind = Library) then
      let '(Done, r) := parseAll ci DelayedCB (BufferIDs ci) r in
      if Done then
        let r := if getParseOnly (Invocation ci) then r
                 else performTypeChecking 0 r in
        (Return tt, delayedParsing DelayedCB r, ci)
      else (AssertionFailed "Parser returned early?", r, ci)
    else if negb (bool_decide (Kind = Main) || bool_decide (Kind = SIL)) then
      (AssertionFailed "Kind == SourceFile::Main || Kind == SourceFile::SIL", r, ci)
    else
      match BufferIDs ci with
      | [BufferID] =>
          let ci := markHashbang BufferID ci in
          let '(finished, p) :=
            pump fuel ci DelayedCB BufferID (pumpStart ci r) in
          if finished
          then (Return tt, delayedParsing DelayedCB (Parsed p), ci)
          else (OutOfFuel, Parsed p, ci)
      | _ => (AssertionFailed "This mode only allows one input", r, ci)
      end.

(** [doIt].  [Context] is a null pointer until [setup] has run. *)
Definition doIt (fuel : nat) (ci : CompilerInstance) : Ran :=
  match Context ci with
  | None => mkRan Undefined ci []
  | Some ctx =>
      let '(ci, r) := startTranslationUnit ctx ci in
      let '(e, r, ci) := parseAndCheck fuel ci r in
      leave e r ci
  end.

(** ** What is observed of a run *)

(** The state a method body stops in. *)
Definition flowState {R} (m : Flow R) : CompilerInstance :=
  match m with
  | Next ci => ci
  | Leave _ ci => ci
  end.

(** The buffers the source manager of [ci'] owns beyond those of [ci]. *)
Definition newBuffers (ci ci' : CompilerInstance) : list nat :=
  drop (length (Buffers (SourceMgr ci))) (Buffers (SourceMgr ci')).

(** The buffer a buffer id stands for. *)
Definition bufferOfID (ci : CompilerInstance) (BufferID : nat)
  : option MemoryBuffer :=
  p ← Buffers (SourceMgr ci) !! BufferID; Memory ci !! p.

(** The pointers to caller memory an invocation carries. *)
Definition callerBuffers (Invok : CompilerInvocation) : list nat :=
  option_list (fst (getCodeCompletionPoint Invok)) ++ getInputBuffers Invok.

(** The buffer ids the parser was called on, in order. *)
Definition parseCalls (tr : list Event) : list nat :=
  omap (fun e => match e with ParseCall b => Some b | _ => None end) tr.

(** The type-checking calls, in order. *)
Definition typeCheckCalls (tr : list Event) : list (SourceFile Decl * nat) :=
  omap (fun e => match e with TypeCheckCall SF n => Some (SF, n) | _ => None end) tr.

(** The source file of the translation unit [doIt] created. *)
Definition singleInputFile (ci : CompilerInstance) : option (SourceFile Decl) :=
  M ← TU ci; ctx ← Context ci; t ← Modules ctx !! M; SourceFiles t !! 0.

(** The pump state after [n] executions of the loop body. *)
Fixpoint pumpTimes (n : nat) (ci : CompilerInstance)
    (DelayedCB : option DelayedParsingCallbacks) (BufferID : nat) (p : Pump)
  : Pump :=
  match n with
  | 0 => p
  | S n => pumpTimes n ci DelayedCB BufferID (pumpOnce ci DelayedCB BufferID p)
  end.

(** The declarations of the source file in a pump state. *)
Definition declsOfPump (p : Pump) : list Decl :=
  Decls (SingleInputFile (Parsed p)).

(** [ci'] owns, beyond the buffers of [ci], one buffer for each element
    of [bs], in this order and with these contents, at addresses that
    were free in [ci]; the ids pushed are consecutive; no buffer of [ci]
    was touched. *)
Definition ingested (bs : list MemoryBuffer) (ci ci' : CompilerInstance) : Prop :=
  exists qs,
    Buffers (SourceMgr ci') = Buffers (SourceMgr ci) ++ qs /\
    BufferIDs ci' =
      BufferIDs ci ++ seq (length (Buffers (SourceMgr ci))) (length bs) /\
    Forall2 (fun q b => Memory ci' !! q = Some b) qs bs /\
    Forall (fun q => Memory ci !! q = None) qs /\
    Memory ci ⊆ Memory ci'.

End Driver.

Arguments Next {Sub R} _.
Arguments Leave {Sub R} _ _.

(** [ci'] differs from [ci] in memory, in the buffers of the source
    manager and in [BufferIDs] at most. *)
Definition onlyBuffersDiffer `{Sub : Subsystems} (ci ci' : CompilerInstance) : Prop :=
  ci' = mkCompilerInstance (Invocation ci) (Memory ci')
          (mkSourceManager (Buffers (SourceMgr ci'))
             (CodeCompletionPoint (SourceMgr ci)) (HashbangBufferID (SourceMgr ci)))
          (Diagnostics ci) (Context ci) (SML ci) (TheSILModule ci)
          (BufferIDs ci') (TU ci).

(** ** A small implementation of the subsystems

    Used to run the driver on concrete inputs.  Every character of a
    buffer is one top-level declaration.  In a library the parser reads
    the whole buffer; otherwise it returns after each declaration, the
    way the parser returns after top-level code, and [Done] tells that
    the end of the buffer was reached.  The persistent state is the
    number of characters read so far. *)

Definition bufferText (sm : SourceManager) (mem : gmap nat MemoryBuffer)
    (BufferID : nat) : list ascii :=
  match Buffers sm !! BufferID with
  | Some p =>
      match mem !! p with
      | Some b => list_ascii_of_string (getBuffer b)
      | None => []
      end
  | None => []
  end.

Definition charParser (sm : SourceManager) (mem : gmap nat MemoryBuffer)
    (SF : SourceFile ascii) (BufferID : nat) (SIL : option unit) (pos : nat)
    (DelayedCB : option DelayedParsingCallbacks)
  : ParseResult ascii nat unit :=
  let text := bufferText sm mem BufferID in
  match Kind SF with
  | Library => mkParseResult text true SIL 0
  | _ =>
      match drop pos text with
      | [] => mkParseResult [] true SIL pos
      | c :: rest => mkParseResult [c] (bool_decide (rest = [])) SIL (S pos)
      end
  end.

Definition isLetter (c : ascii) : bool :=
  let n := nat_of_ascii c in
  (Nat.leb 65 n && Nat.leb n 90) || (Nat.leb 97 n && Nat.leb n 122)
  || Nat.eqb n 95.

Definition isLetterOrDigit (c : ascii) : bool :=
  let n := nat_of_ascii c in
  isLetter c || (Nat.leb 48 n && Nat.leb n 57).

Definition asciiIdentifier (s : string) : bool :=
  match list_ascii_of_string s with
  | [] => false
  | c :: cs => isLetter c && forallb isLetterOrDigit cs
  end.

(** Two files exist; every other path cannot be opened. *)
Definition twoFiles (File : string) : MemoryBuffer + string :=
  if bool_decide (File = "a.swift") then inl (mkMemoryBuffer "ab" "a.swift")
  else if bool_decide (File = "b.swift") then inl (mkMemoryBuffer "c" "b.swift")
  else inr "No such file or directory".

(** The Clang importer is not linked in. *)
Definition plainSubsystems : Subsystems := {|
  Decl := ascii;
  PersistentParserState := nat;
  newPersistentParserState := 0;
  SILModule := unit;
  createEmptyModule := tt;
  SILParserState := unit;
  newSILParserState := fun _ => tt;
  isIdentifier := asciiIdentifier;
  getClangImporterCtor := None;
  getFileOrSTDIN := twoFiles;
  parseIntoTranslationUnit := charParser
|}.

(** A compiler instance as its constructor leaves it, in a memory that
    holds the caller's buffers. *)
Definition newCompilerInstance `{Sub : Subsystems}
    (Invok : CompilerInvocation) (mem : gmap nat MemoryBuffer)
  : CompilerInstance :=
  mkCompilerInstance Invok mem (mkSourceManager [] None None) [] None None None
    [] None.

Definition plainInvocation (kind : SourceKind) (parseOnly : bool)
    (name : string) (files : list string) (bufs : list nat)
    (completion : option nat * nat) : CompilerInvocation :=
  mkCompilerInvocation [] [] "" "" "/usr/lib/swift" "" [] name kind false
    parseOnly false false completion files bufs.

(** Caller memory with two buffers, at addresses 0 and 1. *)
Definition callerMemory : gmap nat MemoryBuffer :=
  <[0 := mkMemoryBuffer "xyz" "<first>"]>
    (<[1 := mkMemoryBuffer "" "<second>"]> ∅).


(** *** Inputs to run the driver on *)

(** A new instance in the caller memory above. *)
Definition freshInstance : @CompilerInstance plainSubsystems :=
  newCompilerInstance (plainInvocation Library false "" [] [] (None, 0))
    callerMemory.

(** A main file with the three declarations of the first caller buffer,
    after [setup]. *)
Definition mainXYZ : @CompilerInstance plainSubsystems :=
  snd (setup (plainInvocation Main false "main" [] [0] (None, 0)) freshInstance).

(** The same, parse-only. *)
Definition mainXYZParseOnly : @CompilerInstance plainSubsystems :=
  snd (setup (plainInvocation Main true "main" [] [0] (None, 0)) freshInstance).

(** A main file that is the empty second caller buffer, after [setup]. *)
Definition mainEmpty : @CompilerInstance plainSubsystems :=
  snd (setup (plainInvocation Main false "main" [] [1] (None, 0)) freshInstance).

(** A main module given two buffers, after [setup]. *)
Definition mainTwoBuffers : @CompilerInstance plainSubsystems :=
  snd (setup (plainInvocation Main false "main" [] [0; 1] (None, 0)) freshInstance).

(** A library of two files and two in-memory buffers, with a code
    completion request in the first caller buffer. *)
Definition libraryInvocation : CompilerInvocation :=
  plainInvocation Library false "lib" ["a.swift"; "b.swift"] [0; 1] (Some 0, 2).

Definition libraryInstance : @CompilerInstance plainSubsystems :=
  snd (setup libraryInvocation freshInstance).

(** Five input paths, the third of which cannot be opened. *)
Definition fivePaths : CompilerInvocation :=
  plainInvocation Library false "lib"
    ["a.swift"; "b.swift"; "c.swift"; "a.swift"; "b.swift"] [0] (None, 0).

(** An invocation with an SDK path. *)
Definition sdkInvocation : CompilerInvocation :=
  mkCompilerInvocation [] [] "/sdk" "x86_64-apple-darwin" "/usr/lib/swift" "" []
    "main" Main false false false false (None, 0) ["a.swift"] [0].

(** The same SDK path with a module name that is not an identifier. *)
Definition sdkNineLives : CompilerInvocation :=
  mkCompilerInvocation [] [] "/sdk" "x86_64-apple-darwin" "/usr/lib/swift" "" []
    "9lives" Main false false false false (None, 0) ["a.swift"] [0].

(** The locals of the pump loop of [doIt] on [mainXYZ] after [n]
    iterations. *)
Definition mainXYZPump (n : nat) : @Pump plainSubsystems :=
  let ctx := default (mkASTContext [] [] ∅ []) (Context mainXYZ) in
  let start := startTranslationUnit ctx mainXYZ in
  let ci' := markHashbang 0 (fst start) in
  pumpTimes n ci' (selectDelayedCB mainXYZ) 0 (pumpStart ci' (snd start)).

(** The main file that holds the declarations of [text]. *)
Definition mainFile (text : string) : SourceFile (@Decl plainSubsystems) :=
  mkSourceFile Main false (list_ascii_of_string text).

(** An instance on which [doIt] has already run once. *)
Definition mainXYZAgain : @CompilerInstance plainSubsystems :=
  instance (doIt 3 mainXYZ).
(** ** Further notions used to describe [setup] and [doIt] *)

(** Lines 50-68 return [true]: an SDK path is given and the Clang
    importer is not linked in or cannot be constructed. *)
Definition importerFails `{Sub : Subsystems} (Invok : CompilerInvocation) : bool :=
  negb (bool_decide (getSDKPath Invok = "")) &&
  match getClangImporterCtor with
  | Some ImporterCtor => negb (ImporterCtor (clangImporterArgs Invok))
  | None => true
  end.

(** The source manager owns distinct live buffers, and [BufferIDs] lists
    distinct ids of buffers the source manager owns. *)
Definition buffersWellFormed `{Sub : Subsystems} (ci : CompilerInstance) : Prop :=
  NoDup (Buffers (SourceMgr ci)) /\
  Forall (fun p => is_Some (Memory ci !! p)) (Buffers (SourceMgr ci)) /\
  NoDup (BufferIDs ci) /\
  Forall (fun BufferID => BufferID < length (Buffers (SourceMgr ci))) (BufferIDs ci).

(** The calls of the delayed parser in a trace. *)
Definition delayedParsingCalls `{Sub : Subsystems} (tr : list Event) : list unit :=
  omap (fun e => match e with DelayedParsingCall => Some tt | _ => None end) tr.

(** A parser that reads the first declaration of a buffer on every call,
    whatever the kind of the file, and reports [Done] when the buffer has
    no more than one. *)
Definition firstDeclParser (sm : SourceManager) (mem : gmap nat MemoryBuffer)
    (SF : SourceFile ascii) (BufferID : nat) (SIL : option unit) (pos : nat)
    (DelayedCB : option DelayedParsingCallbacks)
  : ParseResult ascii nat unit :=
  let text := bufferText sm mem BufferID in
  mkParseResult (take 1 text) (bool_decide (length text <= 1)) SIL pos.

(** The Clang importer is linked in and can be constructed for the SDK
    "/sdk" only; the parser is the one above. *)
Definition linkedSubsystems : Subsystems := {|
  Decl := ascii;
  PersistentParserState := nat;
  newPersistentParserState := 0;
  SILModule := unit;
  createEmptyModule := tt;
  SILParserState := unit;
  newSILParserState := fun _ => tt;
  isIdentifier := asciiIdentifier;
  getClangImporterCtor := Some (fun args => bool_decide (argSDKPath args = "/sdk"));
  getFileOrSTDIN := twoFiles;
  parseIntoTranslationUnit := firstDeclParser
|}.


(** *** Further inputs *)

(** A new instance where the Clang importer is linked in. *)
Definition linkedInstance : @CompilerInstance linkedSubsystems :=
  newCompilerInstance (plainInvocation Library false "" [] [] (None, 0))
    callerMemory.

(** An invocation whose SDK the Clang importer cannot be constructed
    for. *)
Definition otherSdkInvocation : CompilerInvocation :=
  mkCompilerInvocation ["/imports"] [] "/other" "x86_64-apple-darwin"
    "/usr/lib/swift" "" [] "main" Main false false false false (None, 0)
    ["a.swift"] [].

(** A REPL session, after [setup]. *)
Definition replInstance : @CompilerInstance plainSubsystems :=
  snd (setup (plainInvocation REPL false "repl" [] [] (None, 0)) freshInstance).

(** A library of four buffers with the texts "c", "", "xyz" and "", for
    the parser that reads one declaration per call. *)
Definition linkedLibrary : @CompilerInstance linkedSubsystems :=
  snd (setup (plainInvocation Library false "lib" ["b.swift"] [1; 0; 1] (None, 0))
         linkedInstance).

(** A main file with a code completion request in another buffer. *)
Definition completionNextToFile : CompilerInvocation :=
  plainInvocation Main false "main" ["a.swift"] [] (Some 0, 1).
(** * Properties *)

Section Properties.
Context `{Sub : Subsystems}.

(** ** Ingesting buffers *)

Lemma fresh_address_free (mem : gmap nat MemoryBuffer) :
  mem !! fresh (dom mem) = None.
Proof. apply not_elem_of_dom, is_fresh. Qed.

Lemma MemoryBuffer_eta (b : MemoryBuffer) :
  mkMemoryBuffer (getBuffer b) (getBufferIdentifier b) = b.
Proof. by destruct b. Qed.

Lemma pushNewSourceBuffer_pair b ci :
  pushNewSourceBuffer b ci =
  (length (Buffers (SourceMgr ci)), snd (pushNewSourceBuffer b ci)).
Proof. reflexivity. Qed.

Lemma ingested_frame ci ci' :
  Memory ci' = Memory ci ->
  Buffers (SourceMgr ci') = Buffers (SourceMgr ci) ->
  BufferIDs ci' = BufferIDs ci ->
  ingested [] ci ci'.
Proof.
  intros Hm Hb Hi. exists []. rewrite Hm, Hb, Hi, !app_nil_r.
  repeat split; auto.
Qed.

Lemma ingested_refl ci : ingested [] ci ci.
Proof. by apply ingested_frame. Qed.

Lemma ingested_push b ci : ingested [b] ci (snd (pushNewSourceBuffer b ci)).
Proof.
  exists [fresh (dom (Memory ci))]. cbn.
  repeat split.
  - constructor; [apply lookup_insert_eq | constructor].
  - constructor; [apply fresh_address_free | constructor].
  - apply insert_subseteq, fresh_address_free.
Qed.

Lemma ingested_trans bs1 bs2 ci ci1 ci2 :
  ingested bs1 ci ci1 -> ingested bs2 ci1 ci2 -> ingested (bs1 ++ bs2) ci ci2.
Proof.
  intros (qs1 & Hb1 & Hi1 & Hc1 & Hf1 & Hs1) (qs2 & Hb2 & Hi2 & Hc2 & Hf2 & Hs2).
  exists (qs1 ++ qs2). repeat split.
  - by rewrite Hb2, Hb1, app_assoc.
  - rewrite Hi2, Hi1, Hb1, !length_app, <- (Forall2_length _ _ _ Hc1).
    by rewrite <- app_assoc, seq_app.
  - apply Forall2_app; [| done].
    eapply Forall2_impl; [exact Hc1 | ].
    intros q b Hq. exact (lookup_weaken _ _ _ _ Hq Hs2).
  - apply Forall_app. split; [done |].
    eapply Forall_impl; [exact Hf2 | ].
    intros q Hq. exact (lookup_weaken_None _ _ _ Hq Hs1).
  - by etrans.
Qed.

Lemma onlyBuffersDiffer_refl ci : onlyBuffersDiffer ci ci.
Proof. unfold onlyBuffersDiffer. by destruct ci as [? ? [] ? ? ? ? ? ?]. Qed.

Lemma onlyBuffersDiffer_trans ci ci1 ci2 :
  onlyBuffersDiffer ci ci1 -> onlyBuffersDiffer ci1 ci2 -> onlyBuffersDiffer ci ci2.
Proof.
  unfold onlyBuffersDiffer. intros H1 H2. rewrite H2. rewrite H1 at 1 2 3 4 5 6 7 8.
  reflexivity.
Qed.

Lemma onlyBuffersDiffer_push b ci :
  onlyBuffersDiffer ci (snd (pushNewSourceBuffer b ci)).
Proof. reflexivity. Qed.

(** ** The input loops of [setup] *)

Lemma setupInputFiles_app pre rest bufs ci :
  Forall2 (fun f b => getFileOrSTDIN f = inl b) pre bufs ->
  exists ci1,
    setupInputFiles (pre ++ rest) ci = setupInputFiles rest ci1 /\
    ingested bufs ci ci1 /\ onlyBuffersDiffer ci ci1.
Proof.
  intros Hpre. revert ci.
  induction Hpre as [| f b pre bufs Hf _ IH]; intros ci.
  - exists ci. auto using ingested_refl, onlyBuffersDiffer_refl.
  - destruct (IH (snd (pushNewSourceBuffer b ci))) as (ci1 & Hrun & Hin & Hfr).
    exists ci1. split; [| split].
    + cbn [app setupInputFiles]. by rewrite Hf.
    + apply (ingested_trans [b] bufs _ _ _ (ingested_push b ci) Hin).
    + apply (onlyBuffersDiffer_trans _ _ _ (onlyBuffersDiffer_push b ci) Hfr).
Qed.

Lemma setupInputFiles_ingested Files ci :
  exists bs, ingested bs ci (flowState (setupInputFiles Files ci)).
Proof.
  revert ci. induction Files as [| f Files IH]; intros ci.
  - exists []. apply ingested_refl.
  - cbn [setupInputFiles]. destruct (getFileOrSTDIN f) as [b | Err].
    + destruct (IH (snd (pushNewSourceBuffer b ci))) as [bs Hbs].
      exists ([b] ++ bs). exact (ingested_trans _ _ _ _ _ (ingested_push b ci) Hbs).
    + exists []. by apply ingested_frame.
Qed.

Lemma setupInputBuffers_ingested Bufs ci :
  exists bs, ingested bs ci (flowState (setupInputBuffers Bufs ci)).
Proof.
  revert ci. induction Bufs as [| p Bufs IH]; intros ci.
  - exists []. apply ingested_refl.
  - cbn [setupInputBuffers]. unfold addBufferCopy.
    destruct (Memory ci !! p) as [b |].
    + rewrite MemoryBuffer_eta.
      destruct (IH (snd (pushNewSourceBuffer b ci))) as [bs Hbs].
      exists ([b] ++ bs). rewrite pushNewSourceBuffer_pair.
      exact (ingested_trans _ _ _ _ _ (ingested_push b ci) Hbs).
    + exists []. apply ingested_refl.
Qed.

(** ** The configuration steps of [setup] *)

(** Splits on the tests the configuration steps make. *)
Ltac config_cases :=
  unfold setupConfiguration, setupClangImporter, setupRuntimeIncludePath,
    setupAssertModuleName, setupSILModule, andThen;
  cbn;
  repeat match goal with
    | |- context [match getClangImporterCtor with _ => _ end] =>
        destruct getClangImporterCtor eqn:?; cbn
    | |- context [if ?c then _ else _] => destruct c eqn:?; cbn
    end.

Lemma setupConfiguration_frame Invok ci :
  let ci1 := flowState (setupConfiguration Invok ci) in
  Invocation ci1 = Invok /\ Memory ci1 = Memory ci /\
  SourceMgr ci1 = SourceMgr ci /\ BufferIDs ci1 = BufferIDs ci /\
  TU ci1 = TU ci.
Proof.
  config_cases; auto.
Qed.

Lemma setupConfiguration_loaders Invok ci :
  ModuleLoaders <$> Context (flowState (setupConfiguration Invok ci)) =
  Some ([SourceLoader (negb (isImmediate Invok)); SerializedModuleLoader] ++
        match getClangImporterCtor with
        | Some ImporterCtor =>
            if negb (bool_decide (getSDKPath Invok = ""))
               && ImporterCtor (clangImporterArgs Invok)
            then [ClangImporter (clangImporterArgs Invok)] else []
        | None => []
        end).
Proof.
  config_cases; try reflexivity;
    repeat match goal with
      | H : _ = _ |- _ => rewrite H; cbn
      end; reflexivity.
Qed.

(** ** Registering the code completion buffer *)

Lemma setupCodeCompletion_frame ci :
  let ci1 := flowState (setupCodeCompletion ci) in
  Invocation ci1 = Invocation ci /\ Context ci1 = Context ci /\
  exists bs, ingested bs ci ci1.
Proof.
  unfold setupCodeCompletion, addBufferCopy, setCodeCompletionPoint.
  destruct (fst (getCodeCompletionPoint (Invocation ci))) as [p |]; cbn;
    [| eauto using ingested_refl].
  destruct (Memory ci !! p) as [b |]; cbn; [| eauto using ingested_refl].
  rewrite MemoryBuffer_eta.
  pose proof (ingested_push b ci) as Hpush.
  destruct (CodeCompletionPoint (SourceMgr ci)); cbn;
    (split; [done | split; [done | exists [b]; exact Hpush]]).
Qed.

Lemma setupCodeCompletion_Next ci ci1 :
  setupCodeCompletion ci = Next ci1 ->
  Diagnostics ci1 = Diagnostics ci /\
  match fst (getCodeCompletionPoint (Invocation ci)) with
  | None => ci1 = ci
  | Some p =>
      exists b, Memory ci !! p = Some b /\ ingested [b] ci ci1 /\
        CodeCompletionPoint (SourceMgr ci1) =
          Some (length (Buffers (SourceMgr ci)),
                snd (getCodeCompletionPoint (Invocation ci)))
  end.
Proof.
  unfold setupCodeCompletion, addBufferCopy, setCodeCompletionPoint.
  destruct (fst (getCodeCompletionPoint (Invocation ci))) as [p |]; cbn;
    [| by intros [= <-]].
  destruct (Memory ci !! p) as [b |]; cbn; [| done].
  rewrite MemoryBuffer_eta.
  pose proof (ingested_push b ci) as Hpush.
  destruct (CodeCompletionPoint (SourceMgr ci)); cbn; [done |].
  intros [= <-]. split; [done |]. exists b. auto.
Qed.

(** ** Frames of the later steps *)

Lemma flowState_andThen_preserved {X} (f : CompilerInstance -> X)
    (m : Flow bool) (k : CompilerInstance -> Flow bool) :
  (forall ci, f (flowState (k ci)) = f ci) ->
  f (flowState (andThen m k)) = f (flowState m).
Proof. intros Hk. destruct m; cbn; auto. Qed.

Lemma setupInputFiles_frame Files ci :
  let ci1 := flowState (setupInputFiles Files ci) in
  Invocation ci1 = Invocation ci /\ Context ci1 = Context ci.
Proof.
  revert ci. induction Files as [| f Files IH]; intros ci; [done |].
  cbn [setupInputFiles]. destruct (getFileOrSTDIN f) as [b | Err]; [| done].
  apply (IH (snd (pushNewSourceBuffer b ci))).
Qed.

Lemma setupInputBuffers_frame Bufs ci :
  let ci1 := flowState (setupInputBuffers Bufs ci) in
  Invocation ci1 = Invocation ci /\ Context ci1 = Context ci.
Proof.
  revert ci. induction Bufs as [| p Bufs IH]; intros ci; [done |].
  cbn [setupInputBuffers]. unfold addBufferCopy.
  destruct (Memory ci !! p) as [b |]; [| done].
  rewrite pushNewSourceBuffer_pair.
  destruct (IH (snd (pushNewSourceBuffer
                       (mkMemoryBuffer (getBuffer b) (getBufferIdentifier b)) ci)))
    as [-> ->].
  done.
Qed.

Lemma setup_state Invok ci :
  snd (setup Invok ci) = flowState (setupFlow Invok ci).
Proof. unfold setup. by destruct (setupFlow Invok ci). Qed.

Lemma setupBeforeInputs_Invocation Invok ci :
  Invocation (flowState (setupBeforeInputs Invok ci)) = Invok.
Proof.
  unfold setupBeforeInputs.
  rewrite (flowState_andThen_preserved Invocation).
  - apply setupConfiguration_frame.
  - intros c. apply setupCodeCompletion_frame.
Qed.

(** C4.  Whatever way [setup] leaves, the module loaders of the context
    it built are the source loader and the serialized module loader, in
    this order, followed by the Clang importer exactly when the SDK path
    is not empty, the importer constructor is linked in and the
    construction succeeds; with an empty SDK path there are exactly the
    two. *)
Theorem setup_module_loaders Invok ci :
  ModuleLoaders <$> Context (snd (setup Invok ci)) =
  Some ([SourceLoader (negb (isImmediate Invok)); SerializedModuleLoader] ++
        match getClangImporterCtor with
        | Some ImporterCtor =>
            if negb (bool_decide (getSDKPath Invok = ""))
               && ImporterCtor (clangImporterArgs Invok)
            then [ClangImporter (clangImporterArgs Invok)] else []
        | None => []
        end).
Proof.
  rewrite setup_state. unfold setupFlow, setupBeforeInputs.
  rewrite (flowState_andThen_preserved Context)
    by (intros c; apply setupInputBuffers_frame).
  rewrite (flowState_andThen_preserved Context)
    by (intros c; apply setupInputFiles_frame).
  rewrite (flowState_andThen_preserved Context)
    by (intros c; apply setupCodeCompletion_frame).
  apply setupConfiguration_loaders.
Qed.

(** ** Runs of [setup] that reach the end *)

Lemma setupInputFiles_Next Files ci ci' :
  setupInputFiles Files ci = Next ci' ->
  exists bufs,
    Forall2 (fun f b => getFileOrSTDIN f = inl b) Files bufs /\
    ingested bufs ci ci' /\ onlyBuffersDiffer ci ci'.
Proof.
  revert ci. induction Files as [| f Files IH]; intros ci.
  - intros [= <-]. exists []. auto using ingested_refl, onlyBuffersDiffer_refl.
  - cbn [setupInputFiles]. destruct (getFileOrSTDIN f) as [b | Err] eqn:Hf; [| done].
    intros (bufs & Hall & Hin & Hfr)%IH.
    exists (b :: bufs). split; [by constructor | split].
    + exact (ingested_trans [b] bufs _ _ _ (ingested_push b ci) Hin).
    + exact (onlyBuffersDiffer_trans _ _ _ (onlyBuffersDiffer_push b ci) Hfr).
Qed.

Lemma setupInputBuffers_Next Bufs ci ci' :
  setupInputBuffers Bufs ci = Next ci' ->
  exists bs,
    Forall2 (fun p b => Memory ci' !! p = Some b) Bufs bs /\
    ingested bs ci ci' /\ onlyBuffersDiffer ci ci'.
Proof.
  revert ci. induction Bufs as [| p Bufs IH]; intros ci.
  - intros [= <-]. exists []. auto using ingested_refl, onlyBuffersDiffer_refl.
  - cbn [setupInputBuffers]. unfold addBufferCopy.
    destruct (Memory ci !! p) as [b |] eqn:Hp; [| done].
    rewrite MemoryBuffer_eta, pushNewSourceBuffer_pair.
    intros (bs & Hall & Hin & Hfr)%IH.
    pose proof (ingested_trans [b] bs _ _ _ (ingested_push b ci) Hin) as Htrans.
    exists (b :: bs). split; [| split].
    + constructor; [| done].
      destruct Htrans as (_ & _ & _ & _ & _ & Hsub).
      exact (lookup_weaken _ _ _ _ Hp Hsub).
    + exact Htrans.
    + exact (onlyBuffersDiffer_trans _ _ _ (onlyBuffersDiffer_push b ci) Hfr).
Qed.

Lemma setupConfiguration_Leave Invok ci e ci1 :
  setupConfiguration Invok ci = Leave e ci1 -> e <> Return false.
Proof. config_cases; intros [= <- <-]; done. Qed.

Lemma setupCodeCompletion_Leave ci e ci1 :
  setupCodeCompletion ci = Leave e ci1 -> e <> Return false.
Proof.
  unfold setupCodeCompletion, addBufferCopy, setCodeCompletionPoint.
  destruct (fst (getCodeCompletionPoint (Invocation ci))); cbn; [| done].
  destruct (Memory ci !! _); cbn; [| by intros [= <- <-]].
  destruct (CodeCompletionPoint (SourceMgr ci)); cbn; [| done].
  by intros [= <- <-].
Qed.

Lemma setupInputFiles_Leave Files ci e ci1 :
  setupInputFiles Files ci = Leave e ci1 -> e <> Return false.
Proof.
  revert ci. induction Files as [| f Files IH]; intros ci; [done |].
  cbn [setupInputFiles]. destruct (getFileOrSTDIN f); [apply IH |].
  by intros [= <- <-].
Qed.

Lemma setupInputBuffers_Leave Bufs ci e ci1 :
  setupInputBuffers Bufs ci = Leave e ci1 -> e <> Return false.
Proof.
  revert ci. induction Bufs as [| p Bufs IH]; intros ci; [done |].
  cbn [setupInputBuffers]. unfold addBufferCopy.
  destruct (Memory ci !! p); [| by intros [= <- <-]].
  rewrite pushNewSourceBuffer_pair. apply IH.
Qed.

(** A successful [setup] went through every step. *)
Lemma setup_success_steps Invok ci ci' :
  setup Invok ci = (Return false, ci') ->
  exists ci1 ci2 ci3,
    setupConfiguration Invok ci = Next ci1 /\
    setupCodeCompletion ci1 = Next ci2 /\
    setupInputFiles (getInputFilenames Invok) ci2 = Next ci3 /\
    setupInputBuffers (getInputBuffers Invok) ci3 = Next ci'.
Proof.
  unfold setup, setupFlow, setupBeforeInputs.
  pose proof (setupConfiguration_frame Invok ci) as (Hinv & _).
  destruct (setupConfiguration Invok ci) as [ci1 | e ci1] eqn:H1; cbn in *.
  2:{ intros [= -> _]. by apply setupConfiguration_Leave in H1. }
  pose proof (setupCodeCompletion_frame ci1) as (Hinv2 & _).
  destruct (setupCodeCompletion ci1) as [ci2 | e ci2] eqn:H2; cbn in *.
  2:{ intros [= -> _]. by apply setupCodeCompletion_Leave in H2. }
  rewrite Hinv2, Hinv.
  pose proof (setupInputFiles_frame (getInputFilenames Invok) ci2) as (Hinv3 & _).
  destruct (setupInputFiles _ ci2) as [ci3 | e ci3] eqn:H3; cbn in *.
  2:{ intros [= -> _]. by apply setupInputFiles_Leave in H3. }
  rewrite Hinv3, Hinv2, Hinv.
  destruct (setupInputBuffers _ ci3) as [ci4 | e ci4] eqn:H4; cbn in *.
  2:{ intros [= -> _]. by apply setupInputBuffers_Leave in H4. }
  intros [= <-]. eauto 10.
Qed.

Lemma onlyBuffersDiffer_fields ci ci' :
  onlyBuffersDiffer ci ci' ->
  Invocation ci' = Invocation ci /\ Diagnostics ci' = Diagnostics ci /\
  Context ci' = Context ci /\
  CodeCompletionPoint (SourceMgr ci') = CodeCompletionPoint (SourceMgr ci).
Proof. unfold onlyBuffersDiffer. intros ->. auto. Qed.

Lemma ingested_subseteq bs ci ci' : ingested bs ci ci' -> Memory ci ⊆ Memory ci'.
Proof. by intros (_ & _ & _ & _ & _ & Hsub). Qed.

Lemma ingested_newBuffers bs ci ci' :
  ingested bs ci ci' ->
  Forall2 (fun q b => Memory ci' !! q = Some b) (newBuffers ci ci') bs /\
  Forall (fun q => Memory ci !! q = None) (newBuffers ci ci').
Proof.
  intros (qs & Hb & _ & Hc & Hf & _). unfold newBuffers.
  by rewrite Hb, drop_app_length.
Qed.

Lemma setup_success Invok ci ci' :
  setup Invok ci = (Return false, ci') ->
  exists ccBufs fileBufs memBufs,
    Forall2 (fun p b => Memory ci' !! p = Some b)
      (option_list (fst (getCodeCompletionPoint Invok))) ccBufs /\
    Forall2 (fun f b => getFileOrSTDIN f = inl b) (getInputFilenames Invok) fileBufs /\
    Forall2 (fun p b => Memory ci' !! p = Some b) (getInputBuffers Invok) memBufs /\
    ingested (ccBufs ++ fileBufs ++ memBufs) ci ci' /\
    (forall p, fst (getCodeCompletionPoint Invok) = Some p ->
       CodeCompletionPoint (SourceMgr ci') =
         Some (length (Buffers (SourceMgr ci)), snd (getCodeCompletionPoint Invok))).
Proof.
  intros (ci1 & ci2 & ci3 & H1 & H2 & H3 & H4)%setup_success_steps.
  pose proof (setupConfiguration_frame Invok ci) as Hfr1.
  rewrite H1 in Hfr1. cbn in Hfr1. destruct Hfr1 as (Hinv & Hmem & Hsm & Hids & _).
  assert (ingested [] ci ci1) as Hin1
    by (apply ingested_frame; [done | by rewrite Hsm | done]).
  apply setupCodeCompletion_Next in H2 as (_ & H2). rewrite Hinv in H2.
  apply setupInputFiles_Next in H3 as (fileBufs & Hfiles & Hin3 & Hfr3).
  apply setupInputBuffers_Next in H4 as (memBufs & Hmems & Hin4 & Hfr4).
  apply onlyBuffersDiffer_fields in Hfr3 as (_ & _ & _ & Hcc3).
  apply onlyBuffersDiffer_fields in Hfr4 as (_ & _ & _ & Hcc4).
  pose proof (ingested_subseteq _ _ _ Hin3) as Hsub3.
  pose proof (ingested_subseteq _ _ _ Hin4) as Hsub4.
  destruct (fst (getCodeCompletionPoint Invok)) as [p |] eqn:Hp.
  - destruct H2 as (b & Hb & Hin2 & Hcc2).
    exists [b], fileBufs, memBufs. split_and!; try done.
    + constructor; [| constructor].
      pose proof (ingested_subseteq _ _ _ Hin2) as Hsub2.
      eapply lookup_weaken; [| exact Hsub4].
      eapply lookup_weaken; [| exact Hsub3].
      eapply lookup_weaken; [exact Hb | exact Hsub2].
    + exact (ingested_trans [] _ _ _ _ Hin1
               (ingested_trans [b] _ _ _ _ Hin2
                  (ingested_trans _ _ _ _ _ Hin3 Hin4))).
    + intros q _. by rewrite Hcc4, Hcc3, Hcc2, Hsm.
  - subst ci2. exists [], fileBufs, memBufs. split_and!; try done.
    exact (ingested_trans [] _ _ _ _ Hin1
             (ingested_trans _ _ _ _ _ Hin3 Hin4)).
Qed.

(** C5.  When every step of [setup] before input acquisition has gone
    through (leaving the state [ci1]) and [File] is the first configured
    path that cannot be opened, [setup] returns [true] after diagnosing
    exactly that path with the message of the error, and the buffers it
    has ingested since [ci1] are those of the paths before [File], one
    each and in order: none for [File], for a later path or for an
    in-memory buffer. *)
Theorem setup_fails_fast_on_input Invok ci ci1 pre File post bufs Err :
  setupBeforeInputs Invok ci = Next ci1 ->
  getInputFilenames Invok = pre ++ File :: post ->
  Forall2 (fun f b => getFileOrSTDIN f = inl b) pre bufs ->
  getFileOrSTDIN File = inr Err ->
  let ci' := snd (setup Invok ci) in
  fst (setup Invok ci) = Return true /\
  Diagnostics ci' = Diagnostics ci1 ++ [error_open_input_file File Err] /\
  BufferIDs ci' =
    BufferIDs ci1 ++ seq (length (Buffers (SourceMgr ci1))) (length pre) /\
  Forall2 (fun q b => Memory ci' !! q = Some b) (newBuffers ci1 ci') bufs.
Proof.
  intros Hbefore Hfiles Hpre Hbad.
  pose proof (setupBeforeInputs_Invocation Invok ci) as Hinv.
  rewrite Hbefore in Hinv. cbn in Hinv.
  destruct (setupInputFiles_app pre (File :: post) bufs ci1 Hpre)
    as (ci2 & Hrun & Hin & Hfr).
  unfold setup, setupFlow. rewrite Hbefore. cbn [andThen].
  rewrite Hinv, Hfiles, Hrun. cbn [setupInputFiles]. rewrite Hbad. cbn.
  apply onlyBuffersDiffer_fields in Hfr as (_ & Hdiag & _).
  destruct (ingested_newBuffers _ _ _ Hin) as (Hnew & _).
  destruct Hin as (qs & Hb & Hids & _).
  repeat split.
  - by rewrite Hdiag.
  - by rewrite Hids, (Forall2_length _ _ _ Hpre).
  - exact Hnew.
Qed.

(** C6.  With an SDK path and no Clang importer linked in, [setup]
    diagnoses the missing importer and returns [true] before it reaches
    input acquisition: memory, the source manager and the buffer id list
    are what they were, so a buffer id list that was empty is left
    empty. *)
Theorem setup_without_clang_importer Invok ci :
  getSDKPath Invok <> "" ->
  getClangImporterCtor = None ->
  let ci' := snd (setup Invok ci) in
  fst (setup Invok ci) = Return true /\
  Diagnostics ci' = Diagnostics ci ++ [error_clang_importer_not_linked_in] /\
  Memory ci' = Memory ci /\
  SourceMgr ci' = SourceMgr ci /\
  BufferIDs ci' = BufferIDs ci /\
  (BufferIDs ci = [] -> Buffers (SourceMgr ci) = [] ->
   BufferIDs ci' = [] /\ Buffers (SourceMgr ci') = []).
Proof.
  intros Hsdk Hctor.
  unfold setup, setupFlow, setupBeforeInputs, setupConfiguration,
    setupClangImporter, andThen.
  cbn. rewrite (bool_decide_eq_false_2 _ Hsdk), Hctor. cbn. auto 10.
Qed.

(** ** [doIt]: the translation unit *)

Lemma doIt_eq fuel ci ctx :
  Context ci = Some ctx ->
  doIt fuel ci =
    let s := startTranslationUnit ctx ci in
    let b := parseAndCheck fuel (fst s) (snd s) in
    leave (fst (fst b)) (snd (fst b)) (snd b).
Proof.
  intros Hctx. unfold doIt. rewrite Hctx.
  destruct (startTranslationUnit ctx ci) as [ci1 r]. cbn.
  by destruct (parseAndCheck fuel ci1 r) as [[e r'] ci2].
Qed.

(** Splits on the tests [parseAndCheck] makes. *)
Ltac body_cases :=
  unfold parseAndCheck, markHashbang;
  repeat match goal with
    | |- context [match BufferIDs ?c with _ => _ end] =>
        destruct (BufferIDs c) as [| ? [| ? ?]] eqn:?
    | |- context [let '(_, _) := ?c in _] => destruct c eqn:?
    | |- context [if ?c then _ else _] => destruct c eqn:?
    end; cbn.

Lemma parseAndCheck_frame fuel ci r :
  let ci' := snd (parseAndCheck fuel ci r) in
  TU ci' = TU ci /\ Context ci' = Context ci /\ Invocation ci' = Invocation ci.
Proof. body_cases; auto. Qed.

Lemma lookup_new_module (ms : list (TranslationUnit Decl)) ID SF1 SF2 :
  alter (fun t => mkTranslationUnit (Name t) (<[0 := SF2]> (SourceFiles t)))
    (length ms)
    (alter (fun t => mkTranslationUnit (Name t) (SourceFiles t ++ [SF1]))
       (length ms) (ms ++ [mkTranslationUnit ID []])) !! length ms =
  Some (mkTranslationUnit ID [SF2]).
Proof.
  rewrite !list_lookup_alter_eq, lookup_app_r, Nat.sub_diag by done.
  reflexivity.
Qed.

(** The state [doIt] leaves, whatever the way it leaves. *)
Lemma doIt_instance fuel ci ctx :
  Context ci = Some ctx ->
  exists ctx' SF,
    Context (instance (doIt fuel ci)) = Some ctx' /\
    TU (instance (doIt fuel ci)) = Some (length (Modules ctx)) /\
    LoadedModules ctx' =
      <[getModuleName (Invocation ci) := length (Modules ctx)]> (LoadedModules ctx) /\
    Modules ctx' !! length (Modules ctx) =
      Some (mkTranslationUnit (getModuleName (Invocation ci)) [SF]) /\
    singleInputFile (instance (doIt fuel ci)) = Some SF.
Proof.
  intros Hctx. rewrite (doIt_eq _ _ _ Hctx). cbn zeta.
  set (s := startTranslationUnit ctx ci).
  pose proof (parseAndCheck_frame fuel (fst s) (snd s)) as (Htu & Hc & _).
  destruct (parseAndCheck fuel (fst s) (snd s)) as [[e r] ci2]. cbn in *.
  unfold leave, storeSingleInputFile, singleInputFile. cbn.
  rewrite Htu, Hc. cbn.
  eexists _, (SingleInputFile r). split_and!; try reflexivity.
  - exact Htu.
  - cbn. apply lookup_new_module.
  - rewrite Htu. cbn. rewrite lookup_new_module. reflexivity.
Qed.

(** The way [doIt] leaves, its trace and its source file are those of
    [parseAndCheck]. *)
Lemma doIt_parts fuel ci ctx :
  Context ci = Some ctx ->
  let s := startTranslationUnit ctx ci in
  let b := parseAndCheck fuel (fst s) (snd s) in
  exit (doIt fuel ci) = fst (fst b) /\
  trace (doIt fuel ci) = Trace (snd (fst b)) /\
  singleInputFile (instance (doIt fuel ci)) = Some (SingleInputFile (snd (fst b))).
Proof.
  intros Hctx. rewrite (doIt_eq _ _ _ Hctx). cbn zeta.
  set (s := startTranslationUnit ctx ci).
  pose proof (parseAndCheck_frame fuel (fst s) (snd s)) as (Htu & Hc & _).
  destruct (parseAndCheck fuel (fst s) (snd s)) as [[e r] ci2]. cbn in *.
  split; [done | split; [done |]].
  unfold storeSingleInputFile, singleInputFile. rewrite Htu, Hc. cbn.
  rewrite Htu. cbn. rewrite lookup_new_module. reflexivity.
Qed.

(** C9.  [doIt] stores the translation unit it has just created in
    [LoadedModules] under the module name, whatever was stored there: the
    map it leaves is the old one with that one entry overwritten, so a
    lookup of the module name gives the new unit, which is none of the
    modules that existed before and carries the configured name. *)
Theorem doIt_registers_module_last_writer_wins fuel ci ctx :
  Context ci = Some ctx ->
  let Key := getModuleName (Invocation ci) in
  let M := length (Modules ctx) in
  exists ctx',
    Context (instance (doIt fuel ci)) = Some ctx' /\
    TU (instance (doIt fuel ci)) = Some M /\
    Modules ctx !! M = None /\
    Name <$> Modules ctx' !! M = Some Key /\
    LoadedModules ctx' = <[Key := M]> (LoadedModules ctx) /\
    LoadedModules ctx' !! Key = Some M /\
    (forall k, k <> Key -> LoadedModules ctx' !! k = LoadedModules ctx !! k).
Proof.
  intros Hctx. cbn zeta.
  destruct (doIt_instance fuel ci ctx Hctx) as (ctx' & SF & Hc & Htu & Hl & Hm & _).
  exists ctx'. split_and!; try done.
  - by apply lookup_ge_None_2.
  - by rewrite Hm.
  - rewrite Hl. apply lookup_insert_eq.
  - intros k Hk. rewrite Hl. by apply lookup_insert_ne.
Qed.

(** ** Assertions *)

Lemma doIt_asserts_one_input fuel ci ctx :
  Context ci = Some ctx ->
  getInputKind (Invocation ci) = Main \/ getInputKind (Invocation ci) = SIL ->
  length (BufferIDs ci) <> 1 ->
  exit (doIt fuel ci) = AssertionFailed "This mode only allows one input" /\
  trace (doIt fuel ci) = [].
Proof.
  intros Hctx Hkind Hlen. rewrite (doIt_eq _ _ _ Hctx). cbn zeta.
  unfold parseAndCheck. cbn.
  destruct Hkind as [-> | ->]; cbn;
    (destruct (BufferIDs ci) as [| b [| b' l]]; [done | done | done]).
Qed.

(** C7, as the code has it.  A module name that is not an identifier
    makes [setup] fail its assertion once the module loaders are in
    place (no SDK path, or an importer that is linked in and
    constructs), before any buffer is ingested and without a diagnostic.
    But the Clang importer comes first: with an SDK path and an importer
    that is not linked in or does not construct, [setup] returns [true]
    with the importer's diagnostic whatever the module name, and the
    assertion is not reached.  For a main or SIL input, a number of
    buffers other than one makes [doIt] fail its assertion before the
    parser is called at all. *)
Theorem contract_violations_abort :
  (forall Invok ci,
     isIdentifier (getModuleName Invok) = false ->
     (getSDKPath Invok = "" \/
      exists ImporterCtor, getClangImporterCtor = Some ImporterCtor /\
        ImporterCtor (clangImporterArgs Invok) = true) ->
     exists msg, fst (setup Invok ci) = AssertionFailed msg /\
       Diagnostics (snd (setup Invok ci)) = Diagnostics ci /\
       BufferIDs (snd (setup Invok ci)) = BufferIDs ci) /\
  (forall Invok ci,
     getSDKPath Invok <> "" ->
     (getClangImporterCtor = None \/
      exists ImporterCtor, getClangImporterCtor = Some ImporterCtor /\
        ImporterCtor (clangImporterArgs Invok) = false) ->
     fst (setup Invok ci) = Return true /\
     (exists d, Diagnostics (snd (setup Invok ci)) = Diagnostics ci ++ [d] /\
        (d = error_clang_importer_not_linked_in \/
         d = error_clang_importer_create_fail)) /\
     BufferIDs (snd (setup Invok ci)) = BufferIDs ci) /\
  (forall fuel ci ctx,
     Context ci = Some ctx ->
     getInputKind (Invocation ci) = Main \/ getInputKind (Invocation ci) = SIL ->
     length (BufferIDs ci) <> 1 ->
     exists msg, exit (doIt fuel ci) = AssertionFailed msg /\
       trace (doIt fuel ci) = []).
Proof.
  split; [| split].
  - intros Invok ci Hid Hloaders.
    unfold setup, setupFlow, setupBeforeInputs, setupConfiguration,
      setupClangImporter, setupRuntimeIncludePath, setupAssertModuleName, andThen.
    cbn.
    destruct (bool_decide (getSDKPath Invok = "")) eqn:Hsdk; cbn.
    + rewrite Hid. cbn. eauto.
    + destruct Hloaders as [Hempty | (ctor & -> & Hok)].
      * by rewrite bool_decide_eq_true_2 in Hsdk.
      * rewrite Hok. cbn. rewrite Hid. cbn. eauto.
  - intros Invok ci Hsdk Himporter.
    unfold setup, setupFlow, setupBeforeInputs, setupConfiguration,
      setupClangImporter, andThen.
    cbn. rewrite (bool_decide_eq_false_2 _ Hsdk).
    destruct Himporter as [-> | (ctor & -> & Hfail)]; cbn.
    + eauto 10.
    + rewrite Hfail. cbn. eauto 10.
  - intros fuel ci ctx Hctx Hkind Hlen. eexists.
    by apply (doIt_asserts_one_input fuel ci ctx).
Qed.

(** ** Traces *)

Lemma typeCheckCalls_app (tr1 tr2 : list Event) :
  typeCheckCalls (tr1 ++ tr2) = typeCheckCalls tr1 ++ typeCheckCalls tr2.
Proof. apply omap_app. Qed.

Lemma parseCalls_app (tr1 tr2 : list Event) :
  parseCalls (tr1 ++ tr2) = parseCalls tr1 ++ parseCalls tr2.
Proof. apply omap_app. Qed.

Lemma callParser_Trace ci cb SIL b r :
  Trace (snd (callParser ci cb SIL b r)) = Trace r ++ [ParseCall b].
Proof. reflexivity. Qed.

Lemma parseAll_Trace ci cb ids r :
  exists n,
    Trace (snd (parseAll ci cb ids r)) = Trace r ++ (ParseCall <$> take n ids) /\
    (ids <> [] -> 0 < n).
Proof.
  revert r. induction ids as [| b ids IH]; intros r.
  - exists 0. cbn. by rewrite app_nil_r.
  - cbn [parseAll]. destruct (callParser ci cb None b r) as [[done sil] r1] eqn:E.
    assert (Trace r1 = Trace r ++ [ParseCall b]) as Htr
      by (by rewrite <- (callParser_Trace ci cb None b r), E).
    destruct done.
    + destruct (IH r1) as (n & Hn & _). exists (S n).
      rewrite Hn, Htr, <- app_assoc. split; [done | lia].
    + exists 1. cbn. rewrite take_0. split; [done | lia].
Qed.

Lemma delayedParsing_Trace cb r :
  Trace (delayedParsing cb r) =
  Trace r ++ match cb with Some _ => [DelayedParsingCall] | None => [] end.
Proof. destruct cb; cbn; by rewrite ?app_nil_r. Qed.

Lemma delayedParsing_file cb r :
  SingleInputFile (delayedParsing cb r) = SingleInputFile r.
Proof. by destruct cb. Qed.

(** ** The pump loop *)

Section Pump.
Variable ci : CompilerInstance.
Variable DelayedCB : option DelayedParsingCallbacks.
Variable BufferID : nat.

Local Abbreviation once := (pumpOnce ci DelayedCB BufferID).
Local Abbreviation times n := (pumpTimes n ci DelayedCB BufferID).

Lemma pumpOnce_spec p :
  (exists batch, declsOfPump (once p) = declsOfPump p ++ batch) /\
  CurTUElem (once p) = length (declsOfPump (once p)) /\
  Trace (Parsed (once p)) =
    Trace (Parsed p) ++
    ParseCall BufferID ::
    (if getParseOnly (Invocation ci) then []
     else [TypeCheckCall (SingleInputFile (Parsed (once p))) (CurTUElem p)]).
Proof.
  unfold declsOfPump, pumpOnce.
  destruct (TheSILModule ci), (getParseOnly (Invocation ci)); cbn;
    (split; [eauto | split; [done |]]);
    by rewrite <- ?app_assoc.
Qed.

Lemma pumpTimes_S n p : times (S n) p = once (times n p).
Proof. revert p. induction n as [| n IH]; intros p; [done |]. apply (IH (once p)). Qed.

(** The loop is left after iteration [S n] when that is the first one to
    report [Done]. *)
Lemma pump_finishes n fuel p :
  Done (times (S n) p) = true ->
  (forall j, j < n -> Done (times (S j) p) = false) ->
  n < fuel ->
  pump fuel ci DelayedCB BufferID p = (true, times (S n) p).
Proof.
  revert fuel p. induction n as [| n IH]; intros fuel p Hdone Hbefore Hfuel;
    (destruct fuel as [| fuel]; [lia |]); cbn [pump].
  - change (times 1 p) with (once p) in Hdone. by rewrite Hdone.
  - pose proof (Hbefore 0 ltac:(lia)) as H0.
    change (times 1 p) with (once p) in H0. rewrite H0.
    apply IH; [done | | lia].
    intros j Hj. apply (Hbefore (S j)). lia.
Qed.

(** The loop is still running after [fuel] iterations none of which
    reports [Done]. *)
Lemma pump_continues fuel p :
  (forall j, j < fuel -> Done (times (S j) p) = false) ->
  pump fuel ci DelayedCB BufferID p = (false, times fuel p).
Proof.
  revert p. induction fuel as [| fuel IH]; intros p Hnever; [done |].
  cbn [pump pumpTimes].
  pose proof (Hnever 0 ltac:(lia)) as H0.
  change (times 1 p) with (once p) in H0. rewrite H0.
  apply IH. intros j Hj. apply (Hnever (S j)). lia.
Qed.

(** Whatever the fuel, the loop stops after some number of iterations. *)
Lemma pump_times fuel p :
  exists k, k <= fuel /\ snd (pump fuel ci DelayedCB BufferID p) = times k p.
Proof.
  revert p. induction fuel as [| fuel IH]; intros p.
  - exists 0. done.
  - cbn [pump]. destruct (Done (once p)).
    + exists 1. split; [lia | done].
    + destruct (IH (once p)) as (k & Hk & ->). exists (S k). split; [lia | done].
Qed.

Lemma pumpTimes_parseCalls n p :
  parseCalls (Trace (Parsed (times n p))) =
  parseCalls (Trace (Parsed p)) ++ replicate n BufferID.
Proof.
  induction n as [| n IH]; [by rewrite app_nil_r |].
  rewrite pumpTimes_S.
  destruct (pumpOnce_spec (times n p)) as (_ & _ & ->).
  rewrite parseCalls_app, IH, <- app_assoc, replicate_S_end. f_equal. f_equal.
  by destruct (getParseOnly (Invocation ci)).
Qed.

Lemma pumpTimes_typeCheckCalls_parseOnly n p :
  getParseOnly (Invocation ci) = true ->
  typeCheckCalls (Trace (Parsed (times n p))) = typeCheckCalls (Trace (Parsed p)).
Proof.
  intros Honly. induction n as [| n IH]; [done |].
  rewrite pumpTimes_S.
  destruct (pumpOnce_spec (times n p)) as (_ & _ & ->).
  rewrite Honly, typeCheckCalls_app, IH. cbn. by rewrite app_nil_r.
Qed.

Lemma pumpTimes_typeCheckCalls_length n p :
  getParseOnly (Invocation ci) = false ->
  length (typeCheckCalls (Trace (Parsed (times n p)))) =
  length (typeCheckCalls (Trace (Parsed p))) + n.
Proof.
  intros Honly. induction n as [| n IH]; [cbn; lia |].
  rewrite pumpTimes_S.
  destruct (pumpOnce_spec (times n p)) as (_ & _ & ->).
  rewrite Honly, typeCheckCalls_app, length_app, IH. cbn. lia.
Qed.

(** The calls of the type checker in [n] iterations: iteration [S j]
    checks the file it leaves from the cursor it found. *)
Lemma pumpTimes_typeCheckCalls n p :
  getParseOnly (Invocation ci) = false ->
  typeCheckCalls (Trace (Parsed (times n p))) =
  typeCheckCalls (Trace (Parsed p)) ++
  ((fun j => (SingleInputFile (Parsed (times (S j) p)), CurTUElem (times j p)))
     <$> seq 0 n).
Proof.
  intros Honly. induction n as [| n IH]; [by rewrite app_nil_r |].
  rewrite seq_S, fmap_app, app_assoc, <- IH. cbn [fmap list_fmap Nat.add].
  rewrite (pumpTimes_S n).
  destruct (pumpOnce_spec (times n p)) as (_ & _ & ->).
  rewrite Honly, typeCheckCalls_app. reflexivity.
Qed.

(** When every iteration adds a declaration, there are at least as many
    declarations as iterations. *)
Lemma pumpTimes_progress n p :
  (forall j, j < n -> length (declsOfPump (times j p)) < length (declsOfPump (times (S j) p))) ->
  n <= length (declsOfPump (times n p)).
Proof.
  induction n as [| n IH]; intros Hprog; [lia |].
  pose proof (Hprog n ltac:(lia)) as Hn.
  assert (n <= length (declsOfPump (times n p))) by (apply IH; intros; apply Hprog; lia).
  lia.
Qed.

(** One iteration, seen from a state in which the cursor is the number
    of declarations. *)
Lemma pump_iteration p0 n :
  CurTUElem p0 = length (declsOfPump p0) ->
  getParseOnly (Invocation ci) = false ->
  CurTUElem (times n p0) <= length (declsOfPump (times n p0)) /\
  CurTUElem (times (S n) p0) = length (declsOfPump (times (S n) p0)) /\
  CurTUElem (times n p0) <= CurTUElem (times (S n) p0) /\
  take (CurTUElem (times n p0)) (declsOfPump (times (S n) p0)) =
    declsOfPump (times n p0) /\
  Trace (Parsed (times (S n) p0)) =
    Trace (Parsed (times n p0)) ++
    [ParseCall BufferID;
     TypeCheckCall (SingleInputFile (Parsed (times (S n) p0)))
       (CurTUElem (times n p0))].
Proof.
  intros Hstart Honly.
  assert (forall m, CurTUElem (times m p0) = length (declsOfPump (times m p0)))
    as Hcursor.
  { intros [| m]; [done |]. rewrite pumpTimes_S. apply pumpOnce_spec. }
  pose proof (Hcursor n) as Hn. pose proof (Hcursor (S n)) as HSn.
  rewrite pumpTimes_S in *.
  destruct (pumpOnce_spec (times n p0)) as ((batch & Hbatch) & _ & Htr).
  rewrite Honly in Htr.
  split_and!.
  - lia.
  - exact HSn.
  - rewrite HSn, Hbatch, length_app. lia.
  - by rewrite Hn, Hbatch, take_app_length.
  - exact Htr.
Qed.

End Pump.

(** ** Parse-only runs *)

Lemma typeCheckCalls_ParseCall (ids : list nat) :
  typeCheckCalls (ParseCall <$> ids) = [].
Proof. induction ids as [| b ids IH]; [done | exact IH]. Qed.

Lemma parseCalls_ParseCall (ids : list nat) :
  parseCalls (ParseCall <$> ids) = ids.
Proof.
  induction ids as [| b ids IH]; [done |].
  change (b :: parseCalls (ParseCall <$> ids) = b :: ids). by rewrite IH.
Qed.

Lemma markHashbang_Invocation b ci : Invocation (markHashbang b ci) = Invocation ci.
Proof. unfold markHashbang. by destruct (bool_decide _). Qed.

Lemma parseAndCheck_parseOnly fuel ci r :
  getParseOnly (Invocation ci) = true ->
  typeCheckCalls (Trace (snd (fst (parseAndCheck fuel ci r)))) =
  typeCheckCalls (Trace r).
Proof.
  intros Honly. unfold parseAndCheck.
  destruct (bool_decide (getInputKind (Invocation ci) = REPL)); [done |].
  destruct (bool_decide (getInputKind (Invocation ci) = Library)).
  - destruct (parseAll_Trace ci (selectDelayedCB ci) (BufferIDs ci) r) as (n & Hn & _).
    destruct (parseAll ci (selectDelayedCB ci) (BufferIDs ci) r) as [done r1].
    cbn in Hn. rewrite Honly.
    destruct done; cbn; rewrite ?delayedParsing_Trace, ?typeCheckCalls_app, Hn,
      typeCheckCalls_app, typeCheckCalls_ParseCall, app_nil_r;
      [by destruct (selectDelayedCB ci); cbn; rewrite app_nil_r | done].
  - destruct (negb _); [done |].
    destruct (BufferIDs ci) as [| b [| b' l]]; [done | | done].
    destruct (pump_times (markHashbang b ci) (selectDelayedCB ci) b fuel
                (pumpStart (markHashbang b ci) r)) as (k & _ & Hk).
    destruct (pump fuel _ _ b _) as [finished p]. cbn in Hk. subst p.
    assert (typeCheckCalls
              (Trace (Parsed (pumpTimes k (markHashbang b ci) (selectDelayedCB ci) b
                                (pumpStart (markHashbang b ci) r)))) =
            typeCheckCalls (Trace r)) as Hk.
    { apply pumpTimes_typeCheckCalls_parseOnly. by rewrite markHashbang_Invocation. }
    destruct finished; cbn; rewrite ?delayedParsing_Trace, ?typeCheckCalls_app, Hk;
      [by destruct (selectDelayedCB ci); cbn; rewrite app_nil_r | done].
Qed.

(** C3.  With parse-only set, no run of [doIt] calls the type checker:
    whatever the input kind, the buffers, the parser and the number of
    pump iterations, and whatever way the run ends, its trace holds no
    type-checking call. *)
Theorem parse_only_never_type_checks fuel ci :
  getParseOnly (Invocation ci) = true ->
  typeCheckCalls (trace (doIt fuel ci)) = [] /\
  forall SF StartElem, TypeCheckCall SF StartElem ∉ trace (doIt fuel ci).
Proof.
  intros Honly.
  assert (typeCheckCalls (trace (doIt fuel ci)) = []) as Hnone.
  { destruct (Context ci) as [ctx |] eqn:Hctx.
    - rewrite (doIt_eq _ _ _ Hctx). cbn zeta. unfold leave. cbn [trace].
      by rewrite parseAndCheck_parseOnly. 
    - unfold doIt. by rewrite Hctx. }
  split; [done |].
  intros SF n Hin.
  assert ((SF, n) ∈ typeCheckCalls (trace (doIt fuel ci))) as Hcall
    by (apply list_elem_of_omap; eexists; split; [exact Hin | done]).
  rewrite Hnone in Hcall. by apply elem_of_nil in Hcall.
Qed.

(** ** Library input *)

Lemma parseAll_library ci cb (declsOf : nat -> list Decl) ids r :
  Kind (SingleInputFile r) = Library ->
  (forall SF BufferID ps,
     Kind SF = Library -> BufferID ∈ ids ->
     let res := parseIntoTranslationUnit (SourceMgr ci) (Memory ci) SF BufferID
                  None ps cb in
     IsDone res = true /\ NewDecls res = declsOf BufferID) ->
  exists r',
    parseAll ci cb ids r = (true, r') /\
    Trace r' = Trace r ++ (ParseCall <$> ids) /\
    SingleInputFile r' =
      mkSourceFile Library (HasBuiltinModuleAccess (SingleInputFile r))
        (Decls (SingleInputFile r) ++ concat (declsOf <$> ids)).
Proof.
  revert r. induction ids as [| b ids IH]; intros r Hkind Hparser.
  - exists r. cbn. rewrite !app_nil_r. split; [done | split; [done |]].
    destruct r as [[k a ds] ps tr]. cbn in *. by subst k.
  - cbn [parseAll]. unfold callParser.
    destruct (Hparser (SingleInputFile r) b (PersistentState r) Hkind
                ltac:(left)) as (Hdone & Hnew).
    cbn zeta in Hdone, Hnew. rewrite Hdone, Hnew.
    edestruct IH as (r' & Hrun & Htr & Hsf); [| | exists r'; split; [exact Hrun |]].
    + exact Hkind.
    + intros SF id ps HSF Hid. apply Hparser; [done | by right].
    + rewrite Htr, Hsf. cbn. by rewrite <- !app_assoc.
Qed.

Lemma parseAndCheck_library fuel ci r :
  getInputKind (Invocation ci) = Library ->
  parseAndCheck fuel ci r =
    let '(Done, r) := parseAll ci (selectDelayedCB ci) (BufferIDs ci) r in
    if Done then
      (Return tt,
       delayedParsing (selectDelayedCB ci)
         (if getParseOnly (Invocation ci) then r else performTypeChecking 0 r),
       ci)
    else (AssertionFailed "Parser returned early?", r, ci).
Proof. intros Hkind. unfold parseAndCheck. rewrite Hkind. reflexivity. Qed.

(** C2.  For a library, when the parser reports [Done] on every call and
    yields the declarations [declsOf b] for buffer [b], [doIt] returns
    after parsing each buffer of [BufferIDs] once, in order, into the one
    source file, whose declarations are those of the buffers in that
    order; the type checker is called exactly once, after the last
    parser call, on the whole file from declaration 0; with parse-only
    it is not called. *)
Theorem library_parses_all_then_checks_once fuel ci ctx
    (declsOf : nat -> list Decl) :
  Context ci = Some ctx ->
  getInputKind (Invocation ci) = Library ->
  (forall SF BufferID ps,
     Kind SF = Library -> BufferID ∈ BufferIDs ci ->
     let res := parseIntoTranslationUnit (SourceMgr ci) (Memory ci) SF BufferID
                  None ps (selectDelayedCB ci) in
     IsDone res = true /\ NewDecls res = declsOf BufferID) ->
  let SF := mkSourceFile Library (getParseStdlib (Invocation ci))
              (concat (declsOf <$> BufferIDs ci)) in
  exit (doIt fuel ci) = Return tt /\
  singleInputFile (instance (doIt fuel ci)) = Some SF /\
  trace (doIt fuel ci) =
    (ParseCall <$> BufferIDs ci) ++
    (if getParseOnly (Invocation ci) then [] else [TypeCheckCall SF 0]) ++
    match selectDelayedCB ci with
    | Some _ => [DelayedParsingCall]
    | None => []
    end /\
  parseCalls (trace (doIt fuel ci)) = BufferIDs ci /\
  typeCheckCalls (trace (doIt fuel ci)) =
    if getParseOnly (Invocation ci) then [] else [(SF, 0)].
Proof.
  intros Hctx Hkind Hparser SF.
  destruct (doIt_parts fuel ci ctx Hctx) as (He & Ht & Hf).
  cbn zeta in He, Ht, Hf.
  set (s := startTranslationUnit ctx ci) in *.
  destruct (parseAll_library (fst s) (selectDelayedCB (fst s)) declsOf
              (BufferIDs (fst s)) (snd s))
    as (r' & Hrun & Htr & Hsf); [exact Hkind | exact Hparser |].
  assert (parseAndCheck fuel (fst s) (snd s) =
          (Return tt,
           delayedParsing (selectDelayedCB ci)
             (if getParseOnly (Invocation ci) then r' else performTypeChecking 0 r'),
           fst s)) as Hbody.
  { rewrite parseAndCheck_library by exact Hkind. by rewrite Hrun. }
  rewrite Hbody in He, Ht, Hf. cbn in He, Ht, Hf.
  rewrite delayedParsing_Trace in Ht. rewrite delayedParsing_file in Hf.
  cbn in Htr, Hsf.
  assert (SingleInputFile r' = SF) as HSF by exact Hsf.
  assert (trace (doIt fuel ci) =
          (ParseCall <$> BufferIDs ci) ++
          (if getParseOnly (Invocation ci) then [] else [TypeCheckCall SF 0]) ++
          match selectDelayedCB ci with
          | Some _ => [DelayedParsingCall]
          | None => []
          end) as Htrace.
  { rewrite Ht. destruct (getParseOnly (Invocation ci)); cbn;
      rewrite ?Htr, ?HSF, <- ?app_assoc; done. }
  split_and!.
  - exact He.
  - rewrite Hf, <- HSF. by destruct (getParseOnly (Invocation ci)).
  - exact Htrace.
  - rewrite Htrace, !parseCalls_app.
    rewrite parseCalls_ParseCall.
    destruct (getParseOnly (Invocation ci)), (selectDelayedCB ci); cbn;
      by rewrite ?app_nil_r.
  - rewrite Htrace, !typeCheckCalls_app, typeCheckCalls_ParseCall.
    destruct (getParseOnly (Invocation ci)), (selectDelayedCB ci); by cbn.
Qed.

(** ** Main and SIL input *)

Lemma parseAndCheck_pump fuel ci r BufferID :
  getInputKind (Invocation ci) = Main \/ getInputKind (Invocation ci) = SIL ->
  BufferIDs ci = [BufferID] ->
  parseAndCheck fuel ci r =
    let ci' := markHashbang BufferID ci in
    let '(finished, p) :=
      pump fuel ci' (selectDelayedCB ci) BufferID (pumpStart ci' r) in
    if finished
    then (Return tt, delayedParsing (selectDelayedCB ci) (Parsed p), ci')
    else (OutOfFuel, Parsed p, ci').
Proof.
  intros Hkind Hids. unfold parseAndCheck. rewrite Hids.
  by destruct Hkind as [-> | ->].
Qed.

(** C1, as the code has it.  For a main or SIL input with one buffer and
    type checking enabled, let [P n] be the locals of the pump loop after
    [n] iterations.  The cursor [CurTUElem] starts at 0 on an empty file;
    after every iteration it equals the number of declarations of the
    file, so it never decreases and never exceeds that number; the
    iteration appends its declarations behind those already there and
    calls the type checker once, after the parser, on the file from the
    old cursor on, which is exactly the part just parsed.  These are the
    calls [doIt] makes: as long as no iteration has reported [Done],
    [doIt] is in the loop and its trace is that of the iterations so
    far; and when iteration [S n] is the first to report [Done], [doIt]
    returns for any fuel above [n] with the trace of these [S n]
    iterations, followed by the delayed parser if one is selected.  Its
    calls of the type checker are then, in order, for each iteration the
    file that iteration leaves and the cursor it found; the parser was
    called [S n] times, on the one buffer; the cursor equals the number
    [K] of declarations of the file [doIt] leaves; [S n] is at least 1,
    and [S n <= K] provided every iteration added a declaration. *)
Theorem pump_checked_cursor ci ctx BufferID :
  Context ci = Some ctx ->
  getInputKind (Invocation ci) = Main \/ getInputKind (Invocation ci) = SIL ->
  BufferIDs ci = [BufferID] ->
  getParseOnly (Invocation ci) = false ->
  let start := startTranslationUnit ctx ci in
  let ci' := markHashbang BufferID (fst start) in
  let P n := pumpTimes n ci' (selectDelayedCB ci) BufferID
               (pumpStart ci' (snd start)) in
  let checks n :=
    (fun j => (SingleInputFile (Parsed (P (S j))), CurTUElem (P j))) <$> seq 0 n in
  CurTUElem (P 0) = 0 /\
  declsOfPump (P 0) = [] /\
  (forall n,
     CurTUElem (P n) <= length (declsOfPump (P n)) /\
     CurTUElem (P (S n)) = length (declsOfPump (P (S n))) /\
     CurTUElem (P n) <= CurTUElem (P (S n)) /\
     take (CurTUElem (P n)) (declsOfPump (P (S n))) = declsOfPump (P n) /\
     Trace (Parsed (P (S n))) =
       Trace (Parsed (P n)) ++
       [ParseCall BufferID;
        TypeCheckCall (SingleInputFile (Parsed (P (S n)))) (CurTUElem (P n))]) /\
  (forall fuel,
     (forall j, j < fuel -> Done (P (S j)) = false) ->
     exit (doIt fuel ci) = OutOfFuel /\
     trace (doIt fuel ci) = Trace (Parsed (P fuel)) /\
     typeCheckCalls (trace (doIt fuel ci)) = checks fuel) /\
  (forall n fuel,
     Done (P (S n)) = true ->
     (forall j, j < n -> Done (P (S j)) = false) ->
     n < fuel ->
     let K := length (declsOfPump (P (S n))) in
     exit (doIt fuel ci) = Return tt /\
     singleInputFile (instance (doIt fuel ci)) =
       Some (SingleInputFile (Parsed (P (S n)))) /\
     CurTUElem (P (S n)) = K /\
     trace (doIt fuel ci) =
       Trace (Parsed (P (S n))) ++
       match selectDelayedCB ci with
       | Some _ => [DelayedParsingCall]
       | None => []
       end /\
     typeCheckCalls (trace (doIt fuel ci)) = checks (S n) /\
     parseCalls (trace (doIt fuel ci)) = replicate (S n) BufferID /\
     length (parseCalls (trace (doIt fuel ci))) = S n /\
     length (typeCheckCalls (trace (doIt fuel ci))) = S n /\
     1 <= length (parseCalls (trace (doIt fuel ci))) /\
     ((forall j, j <= n ->
         length (declsOfPump (P j)) < length (declsOfPump (P (S j)))) ->
      length (parseCalls (trace (doIt fuel ci))) <= K)).
Proof.
  intros Hctx Hkind Hids Honly start ci' P checks.
  assert (getParseOnly (Invocation ci') = false) as Honly'
    by (unfold ci'; by rewrite markHashbang_Invocation).
  assert (forall n, typeCheckCalls (Trace (Parsed (P n))) = checks n) as Hchecks.
  { intros n. unfold P. by rewrite pumpTimes_typeCheckCalls by exact Honly'. }
  assert (forall n, parseCalls (Trace (Parsed (P n))) = replicate n BufferID)
    as Hparsed.
  { intros n. unfold P. by rewrite pumpTimes_parseCalls. }
  split; [done | split; [done | split; [| split]]].
  - intros n. by apply pump_iteration.
  - intros fuel Hnever.
    destruct (doIt_parts fuel ci ctx Hctx) as (He & Ht & _).
    cbn zeta in He, Ht. fold start in He, Ht.
    assert (parseAndCheck fuel (fst start) (snd start) =
            (OutOfFuel, Parsed (P fuel), ci')) as Hbody.
    { rewrite (parseAndCheck_pump _ _ _ BufferID) by done. cbn zeta.
      fold ci'. change (selectDelayedCB (fst start)) with (selectDelayedCB ci).
      by rewrite (pump_continues _ _ _ fuel _ Hnever). }
    rewrite Hbody in He, Ht. cbn [fst snd] in He, Ht.
    split; [exact He |]. split; [exact Ht |]. by rewrite Ht.
  - intros n fuel Hdone Hbefore Hfuel K.
    destruct (doIt_parts fuel ci ctx Hctx) as (He & Ht & Hf).
    cbn zeta in He, Ht, Hf. fold start in He, Ht, Hf.
    assert (parseAndCheck fuel (fst start) (snd start) =
            (Return tt, delayedParsing (selectDelayedCB ci) (Parsed (P (S n))), ci'))
      as Hbody.
    { rewrite (parseAndCheck_pump _ _ _ BufferID) by done. cbn zeta.
      fold ci'. change (selectDelayedCB (fst start)) with (selectDelayedCB ci).
      by rewrite (pump_finishes _ _ _ n fuel _ Hdone Hbefore Hfuel). }
    rewrite Hbody in He, Ht, Hf. cbn [fst snd] in He, Ht, Hf.
    rewrite delayedParsing_Trace in Ht. rewrite delayedParsing_file in Hf.
    assert (typeCheckCalls (trace (doIt fuel ci)) = checks (S n)) as Hcalls.
    { rewrite Ht, typeCheckCalls_app, Hchecks.
      destruct (selectDelayedCB ci); cbn [typeCheckCalls omap list_omap];
        by rewrite app_nil_r. }
    assert (parseCalls (trace (doIt fuel ci)) = replicate (S n) BufferID)
      as Hparses.
    { rewrite Ht, parseCalls_app, Hparsed.
      destruct (selectDelayedCB ci); cbn [parseCalls omap list_omap];
        by rewrite app_nil_r. }
    split_and!.
    + exact He.
    + exact Hf.
    + by apply pump_iteration.
    + exact Ht.
    + exact Hcalls.
    + exact Hparses.
    + by rewrite Hparses, length_replicate.
    + rewrite Hcalls. unfold checks. by rewrite length_fmap, length_seq.
    + rewrite Hparses, length_replicate. lia.
    + intros Hprog. rewrite Hparses, length_replicate. unfold K, P.
      apply pumpTimes_progress. intros j Hj. apply Hprog. lia.
Qed.

(** ** Copies of caller buffers *)

Lemma setup_Context Invok ci : is_Some (Context (snd (setup Invok ci))).
Proof.
  rewrite setup_state. unfold setupFlow, setupBeforeInputs.
  rewrite (flowState_andThen_preserved Context)
    by (intros c; apply setupInputBuffers_frame).
  rewrite (flowState_andThen_preserved Context)
    by (intros c; apply setupInputFiles_frame).
  rewrite (flowState_andThen_preserved Context)
    by (intros c; apply setupCodeCompletion_frame).
  pose proof (setupConfiguration_loaders Invok ci) as Hl.
  destruct (Context (flowState (setupConfiguration Invok ci))); [eauto | done].
Qed.

Lemma setup_Invocation Invok ci : Invocation (snd (setup Invok ci)) = Invok.
Proof.
  rewrite setup_state. unfold setupFlow.
  rewrite (flowState_andThen_preserved Invocation)
    by (intros c; apply setupInputBuffers_frame).
  rewrite (flowState_andThen_preserved Invocation)
    by (intros c; apply setupInputFiles_frame).
  apply setupBeforeInputs_Invocation.
Qed.

Lemma flowState_andThen_ingested ci (m : Flow bool) k :
  (exists bs, ingested bs ci (flowState m)) ->
  (forall c, exists bs, ingested bs c (flowState (k c))) ->
  exists bs, ingested bs ci (flowState (andThen m k)).
Proof.
  intros [bs1 H1] Hk. destruct m as [c | e c]; cbn in *; [| eauto].
  destruct (Hk c) as [bs2 H2]. eauto using ingested_trans.
Qed.

(** Whatever way [setup] leaves, it has only added buffers. *)
Lemma setup_ingested Invok ci : exists bs, ingested bs ci (snd (setup Invok ci)).
Proof.
  rewrite setup_state. unfold setupFlow, setupBeforeInputs.
  apply flowState_andThen_ingested;
    [apply flowState_andThen_ingested;
       [apply flowState_andThen_ingested | ] | ].
  - exists []. pose proof (setupConfiguration_frame Invok ci) as Hfr.
    cbn zeta in Hfr. destruct Hfr as (_ & Hm & Hs & Hi & _).
    apply ingested_frame; [exact Hm | by rewrite Hs | exact Hi].
  - intros c. apply setupCodeCompletion_frame.
  - intros c. apply setupInputFiles_ingested.
  - intros c. apply setupInputBuffers_ingested.
Qed.

Lemma copies_correspond (mem mem' : gmap nat MemoryBuffer) ps qs bs :
  mem ⊆ mem' ->
  Forall2 (fun p b => mem' !! p = Some b) ps bs ->
  Forall2 (fun q b => mem' !! q = Some b) qs bs ->
  Forall (fun q => mem !! q = None) qs ->
  Forall (fun p => is_Some (mem !! p)) ps ->
  Forall2 (fun p q => q <> p /\ mem' !! q = mem !! p) ps qs.
Proof.
  intros Hsub Hps. revert qs.
  induction Hps as [| p b ps bs Hp _ IH]; intros qs Hqs Hfresh Hlive.
  - apply Forall2_nil_inv_r in Hqs as ->. constructor.
  - apply Forall2_cons_inv_r in Hqs as (q & qs' & Hq & Hqs & ->).
    apply Forall_cons in Hfresh as [Hnone Hfresh].
    apply Forall_cons in Hlive as [[b' Hb'] Hlive].
    constructor; [| by apply IH].
    split; [intros -> ; congruence |].
    rewrite Hq, Hb'. f_equal.
    pose proof (lookup_weaken _ _ _ _ Hb' Hsub). congruence.
Qed.

(** C8.  [setup] never writes to a buffer that existed before the call:
    every such buffer, the caller's among them, has the contents it had.
    The buffers the source manager receives are new objects at addresses
    that were free, so what the caller later stores in or deletes from
    its own buffers does not change them.  When [setup] succeeds and the
    caller's buffers are live, the new buffers are, in order, one copy
    of the completion buffer, the files read, and one copy of each
    in-memory buffer; a copy has the contents of its original and
    another address. *)
Theorem setup_copies_caller_buffers Invok ci :
  let ci' := snd (setup Invok ci) in
  (forall p b, Memory ci !! p = Some b -> Memory ci' !! p = Some b) /\
  (forall q, q ∈ newBuffers ci ci' ->
     Memory ci !! q = None /\ is_Some (Memory ci' !! q)) /\
  (forall q p b',
     q ∈ newBuffers ci ci' -> is_Some (Memory ci !! p) ->
     <[p := b']> (Memory ci') !! q = Memory ci' !! q /\
     delete p (Memory ci') !! q = Memory ci' !! q) /\
  (fst (setup Invok ci) = Return false ->
   Forall (fun p => is_Some (Memory ci !! p)) (callerBuffers Invok) ->
   exists qcompletion qfiles qbuffers,
     newBuffers ci ci' = qcompletion ++ qfiles ++ qbuffers /\
     Forall2 (fun p q => q <> p /\ Memory ci' !! q = Memory ci !! p)
       (option_list (fst (getCodeCompletionPoint Invok))) qcompletion /\
     length qfiles = length (getInputFilenames Invok) /\
     Forall2 (fun p q => q <> p /\ Memory ci' !! q = Memory ci !! p)
       (getInputBuffers Invok) qbuffers).
Proof.
  cbn zeta. destruct (setup_ingested Invok ci) as [bs Hin].
  pose proof (ingested_subseteq _ _ _ Hin) as Hsub.
  destruct (ingested_newBuffers _ _ _ Hin) as (Hnew & Hfresh).
  assert (forall q, q ∈ newBuffers ci (snd (setup Invok ci)) ->
            Memory ci !! q = None /\ is_Some (Memory (snd (setup Invok ci)) !! q))
    as Hq.
  { intros q Hel. split.
    - by eapply Forall_forall in Hfresh.
    - apply list_elem_of_lookup in Hel as [i Hi].
      destruct (Forall2_lookup_l _ _ _ _ _ Hnew Hi) as (b & _ & Hb). eauto. }
  split_and!.
  - intros p b Hp. exact (lookup_weaken _ _ _ _ Hp Hsub).
  - exact Hq.
  - intros q p b' Hel [b Hp]. destruct (Hq q Hel) as [Hnone _].
    assert (p <> q) by congruence.
    by rewrite lookup_insert_ne, lookup_delete_ne.
  - intros Hok Hlive.
    destruct (setup Invok ci) as [e ci'] eqn:Hrun. cbn in *. subst e.
    apply setup_success in Hrun
      as (ccBufs & fileBufs & memBufs & Hcc & Hfiles & Hmems & Hin' & _).
    destruct (ingested_newBuffers _ _ _ Hin') as (Hnew' & Hfresh').
    apply Forall2_app_inv_r in Hnew'
      as (qcc & qrest & Hqcc & (qfiles & qmems & Hqf & Hqm & ->)%Forall2_app_inv_r & Hsplit).
    rewrite Hsplit in Hfresh'.
    apply Forall_app in Hfresh' as (Hfcc & (_ & Hfm)%Forall_app).
    unfold callerBuffers in Hlive. apply Forall_app in Hlive as (Hlcc & Hlm).
    exists qcc, qfiles, qmems. split_and!.
    + exact Hsplit.
    + by apply (copies_correspond _ _ _ _ ccBufs).
    + by rewrite (Forall2_length _ _ _ Hqf), (Forall2_length _ _ _ Hfiles).
    + by apply (copies_correspond _ _ _ _ memBufs).
Qed.

(** ** Registration order *)

Lemma ingested_bufferOfID bs ci ci' :
  ingested bs ci ci' ->
  bufferOfID ci' <$> seq (length (Buffers (SourceMgr ci))) (length bs) = Some <$> bs.
Proof.
  intros (qs & Hb & _ & Hc & _). unfold bufferOfID. rewrite Hb. clear Hb.
  generalize (Buffers (SourceMgr ci)). intros B. revert B.
  induction Hc as [| q b qs bs Hq _ IH]; intros B; [done |].
  cbn. f_equal.
  - rewrite lookup_app_r, Nat.sub_diag by lia. cbn. exact Hq.
  - specialize (IH (B ++ [q])). rewrite length_app, Nat.add_1_r, <- app_assoc in IH.
    exact IH.
Qed.

Lemma live_buffers_before (mem mem' : gmap nat MemoryBuffer) ps bs :
  mem ⊆ mem' ->
  Forall (fun p => is_Some (mem !! p)) ps ->
  Forall2 (fun p b => mem' !! p = Some b) ps bs ->
  Forall2 (fun p b => mem !! p = Some b) ps bs.
Proof.
  intros Hsub Hlive Hps. induction Hps as [| p b ps bs Hp _ IH]; [constructor |].
  apply Forall_cons in Hlive as [[b' Hb'] Hlive].
  constructor; [| by apply IH].
  pose proof (lookup_weaken _ _ _ _ Hb' Hsub). congruence.
Qed.

Lemma doIt_library_first_parse fuel ci ctx :
  Context ci = Some ctx ->
  getInputKind (Invocation ci) = Library ->
  head (parseCalls (trace (doIt fuel ci))) = head (BufferIDs ci).
Proof.
  intros Hctx Hkind.
  destruct (doIt_parts fuel ci ctx Hctx) as (_ & Ht & _). cbn zeta in Ht.
  rewrite parseAndCheck_library in Ht by exact Hkind.
  set (s := startTranslationUnit ctx ci) in *.
  destruct (parseAll_Trace (fst s) (selectDelayedCB (fst s)) (BufferIDs (fst s)) (snd s))
    as (n & Hn & Hpos).
  change (BufferIDs (fst s)) with (BufferIDs ci) in *.
  change (Trace (snd s)) with (@nil Event) in Hn.
  destruct (parseAll _ _ _ _) as [done r1]. cbn [snd app] in Hn.
  assert (parseCalls (trace (doIt fuel ci)) = take n (BufferIDs ci)) as ->.
  { rewrite Ht. destruct done; cbn [fst snd].
    - rewrite delayedParsing_Trace, parseCalls_app.
      destruct (getParseOnly _).
      + rewrite Hn, parseCalls_ParseCall.
        destruct (selectDelayedCB _); cbn; by rewrite app_nil_r.
      + cbn [Trace performTypeChecking].
        rewrite parseCalls_app, Hn, parseCalls_ParseCall.
        destruct (selectDelayedCB _); cbn; by rewrite !app_nil_r.
    - by rewrite Hn, parseCalls_ParseCall. }
  destruct (BufferIDs ci) as [| b ids]; [by rewrite take_nil |].
  destruct n as [| n]; [| done].
  assert (0 < 0) by (by apply Hpos). lia.
Qed.

(** C10.  A successful [setup] of an instance that holds no buffer id
    yet leaves in [BufferIDs] consecutive ids that stand, in this order,
    for a copy of the code completion buffer if there is one, the
    configured input files in configuration order, and copies of the
    in-memory buffers in configuration order.  The id recorded with the
    code completion point is then the first element of [BufferIDs]; and
    for a library the first buffer [doIt] hands to the parser is the
    first element of [BufferIDs]. *)
Theorem setup_registers_buffers_in_order Invok ci ci' :
  BufferIDs ci = [] ->
  Forall (fun p => is_Some (Memory ci !! p)) (callerBuffers Invok) ->
  setup Invok ci = (Return false, ci') ->
  exists ccBufs fileBufs memBufs,
    Forall2 (fun p b => Memory ci !! p = Some b)
      (option_list (fst (getCodeCompletionPoint Invok))) ccBufs /\
    Forall2 (fun f b => getFileOrSTDIN f = inl b) (getInputFilenames Invok) fileBufs /\
    Forall2 (fun p b => Memory ci !! p = Some b) (getInputBuffers Invok) memBufs /\
    BufferIDs ci' =
      seq (length (Buffers (SourceMgr ci))) (length (ccBufs ++ fileBufs ++ memBufs)) /\
    bufferOfID ci' <$> BufferIDs ci' = Some <$> (ccBufs ++ fileBufs ++ memBufs) /\
    (forall p, fst (getCodeCompletionPoint Invok) = Some p ->
       exists id rest,
         BufferIDs ci' = id :: rest /\
         CodeCompletionPoint (SourceMgr ci') =
           Some (id, snd (getCodeCompletionPoint Invok))) /\
    (getInputKind Invok = Library ->
     forall fuel,
       head (parseCalls (trace (doIt fuel ci'))) = head (BufferIDs ci')).
Proof.
  intros Hfresh Hlive Hrun.
  pose proof (setup_Invocation Invok ci) as Hinv.
  pose proof (setup_Context Invok ci) as Hsome.
  rewrite Hrun in Hinv, Hsome. cbn [snd] in Hinv, Hsome.
  apply setup_success in Hrun
    as (ccBufs & fileBufs & memBufs & Hcc & Hfiles & Hmems & Hin & Hpoint).
  pose proof (ingested_subseteq _ _ _ Hin) as Hsub.
  pose proof (ingested_bufferOfID _ _ _ Hin) as Hof.
  assert (BufferIDs ci' =
          seq (length (Buffers (SourceMgr ci))) (length (ccBufs ++ fileBufs ++ memBufs)))
    as Hids by (destruct Hin as (qs & _ & -> & _); by rewrite Hfresh).
  unfold callerBuffers in Hlive. apply Forall_app in Hlive as (Hlcc & Hlm).
  exists ccBufs, fileBufs, memBufs. split_and!.
  - by apply (live_buffers_before _ (Memory ci')).
  - exact Hfiles.
  - by apply (live_buffers_before _ (Memory ci')).
  - exact Hids.
  - by rewrite Hids.
  - intros p Hp. rewrite (Hpoint p Hp), Hids. rewrite Hp in Hcc. cbn in Hcc.
    apply Forall2_cons_inv_l in Hcc as (b & bs & _ & _ & ->). cbn. eauto.
  - intros Hkind fuel.
    destruct Hsome as [ctx Hctx].
    apply (doIt_library_first_parse fuel ci' ctx Hctx). by rewrite Hinv.
Qed.

End Properties.

(** * Further properties of [setup] and [doIt] *)

Section MoreProperties.
Context `{Sub : Subsystems}.

(** Splits on the tests of lines 50-79. *)
Ltac setup_cases :=
  unfold importerFails, setupConfiguration, setupClangImporter,
    setupRuntimeIncludePath, setupAssertModuleName, setupSILModule, andThen;
  cbn;
  repeat match goal with
    | |- context [match getClangImporterCtor with _ => _ end] =>
        destruct getClangImporterCtor eqn:?; cbn
    | |- context [if ?c then _ else _] =>
        match type of c with bool => destruct c eqn:?; cbn end
    end.

(** ** What the buffer steps leave alone *)

Lemma setupCodeCompletion_others ci :
  let ci1 := flowState (setupCodeCompletion ci) in
  TheSILModule ci1 = TheSILModule ci /\ SML ci1 = SML ci /\ TU ci1 = TU ci /\
  Diagnostics ci1 = Diagnostics ci.
Proof.
  unfold setupCodeCompletion, addBufferCopy, setCodeCompletionPoint.
  destruct (fst (getCodeCompletionPoint (Invocation ci))); cbn; [| done].
  destruct (Memory ci !! _); cbn; [| done].
  by destruct (CodeCompletionPoint (SourceMgr ci)).
Qed.

Lemma setupInputFiles_others Files ci :
  let ci1 := flowState (setupInputFiles Files ci) in
  TheSILModule ci1 = TheSILModule ci /\ SML ci1 = SML ci /\ TU ci1 = TU ci.
Proof.
  revert ci. induction Files as [| f Files IH]; intros ci; [done |].
  cbn [setupInputFiles]. destruct (getFileOrSTDIN f) as [b | Err]; [| done].
  apply (IH (snd (pushNewSourceBuffer b ci))).
Qed.

Lemma setupInputBuffers_others Bufs ci :
  let ci1 := flowState (setupInputBuffers Bufs ci) in
  TheSILModule ci1 = TheSILModule ci /\ SML ci1 = SML ci /\ TU ci1 = TU ci /\
  Diagnostics ci1 = Diagnostics ci.
Proof.
  revert ci. induction Bufs as [| p Bufs IH]; intros ci; [done |].
  cbn [setupInputBuffers]. unfold addBufferCopy.
  destruct (Memory ci !! p) as [b |]; [| done].
  rewrite pushNewSourceBuffer_pair.
  apply (IH (snd (pushNewSourceBuffer
                    (mkMemoryBuffer (getBuffer b) (getBufferIdentifier b)) ci))).
Qed.

(** A field that the buffer steps leave alone has, after [setup], the
    value the configuration steps gave it. *)
Lemma setup_field_of_configuration {X} (f : CompilerInstance -> X) Invok ci :
  (forall c, f (flowState (setupCodeCompletion c)) = f c) ->
  (forall Files c, f (flowState (setupInputFiles Files c)) = f c) ->
  (forall Bufs c, f (flowState (setupInputBuffers Bufs c)) = f c) ->
  f (snd (setup Invok ci)) = f (flowState (setupConfiguration Invok ci)).
Proof.
  intros Hc Hf Hb. rewrite setup_state. unfold setupFlow, setupBeforeInputs.
  rewrite (flowState_andThen_preserved f) by (intros c; apply Hb).
  rewrite (flowState_andThen_preserved f) by (intros c; apply Hf).
  by rewrite (flowState_andThen_preserved f) by (intros c; apply Hc).
Qed.

(** ** Import search paths and the SIL module *)

(** X1.  Whatever way [setup] leaves, the import search paths of the
    context it built are those of the invocation, followed by the
    runtime include path unless [setup] returned at the Clang importer
    (not linked in, or not constructed); and a Clang importer among the
    module loaders was constructed with the search paths of the
    invocation, the runtime include path not added. *)
Theorem setup_import_search_paths Invok ci :
  ImportSearchPaths <$> Context (snd (setup Invok ci)) =
    Some (getImportSearchPaths Invok ++
          if importerFails Invok then [] else [getRuntimeIncludePath Invok]) /\
  forall ctx args,
    Context (snd (setup Invok ci)) = Some ctx ->
    ClangImporter args ∈ ModuleLoaders ctx ->
    argImportSearchPaths args = getImportSearchPaths Invok.
Proof.
  pose proof (setup_field_of_configuration Context Invok ci) as Hctx.
  rewrite Hctx;
    [| intros; apply setupCodeCompletion_frame | intros; apply setupInputFiles_frame
     | intros; apply setupInputBuffers_frame].
  split.
  - setup_cases; by rewrite ?app_nil_r.
  - intros ctx args Hsome Hin.
    pose proof (setupConfiguration_loaders Invok ci) as Hl.
    rewrite Hsome in Hl. cbn in Hl. injection Hl as Hl. rewrite Hl in Hin.
    apply elem_of_cons in Hin as [Hin | Hin]; [done |].
    apply elem_of_cons in Hin as [Hin | Hin]; [done |].
    destruct getClangImporterCtor as [c |]; [| by apply elem_of_nil in Hin].
    destruct (_ && _); [| by apply elem_of_nil in Hin].
    apply list_elem_of_singleton in Hin. by injection Hin as ->.
Qed.

(** X2.  [setup] creates a new empty SIL module exactly when it gets
    past the Clang importer and the assertion on the module name and the
    input kind is SIL; otherwise the SIL module of the instance is the
    one it had before the call. *)
Theorem setup_creates_SIL_module Invok ci :
  TheSILModule (snd (setup Invok ci)) =
    if negb (importerFails Invok) && isIdentifier (getModuleName Invok)
       && bool_decide (getInputKind Invok = SIL)
    then Some createEmptyModule
    else TheSILModule ci.
Proof.
  rewrite (setup_field_of_configuration TheSILModule Invok ci);
    [| intros; apply setupCodeCompletion_others | intros; apply setupInputFiles_others
     | intros; apply setupInputBuffers_others].
  setup_cases; reflexivity.
Qed.

(** ** Failures of [setup] *)

(** X3.  With an SDK path and a Clang importer that is linked in but
    cannot be constructed from the invocation, [setup] diagnoses the
    failed construction and returns [true] at once: the context has the
    two default loaders and the search paths of the invocation only, no
    buffer id is recorded, and neither the module name is checked nor a
    SIL module created. *)
Theorem setup_importer_construction_fails Invok ci ImporterCtor :
  getSDKPath Invok <> "" ->
  getClangImporterCtor = Some ImporterCtor ->
  ImporterCtor (clangImporterArgs Invok) = false ->
  let ci' := snd (setup Invok ci) in
  fst (setup Invok ci) = Return true /\
  Diagnostics ci' = Diagnostics ci ++ [error_clang_importer_create_fail] /\
  ModuleLoaders <$> Context ci' =
    Some [SourceLoader (negb (isImmediate Invok)); SerializedModuleLoader] /\
  ImportSearchPaths <$> Context ci' = Some (getImportSearchPaths Invok) /\
  BufferIDs ci' = BufferIDs ci /\
  TheSILModule ci' = TheSILModule ci.
Proof.
  intros Hsdk Hctor Hfail.
  unfold setup, setupFlow, setupBeforeInputs, setupConfiguration,
    setupClangImporter, andThen.
  cbn. rewrite (bool_decide_eq_false_2 _ Hsdk), Hctor. cbn. rewrite Hfail. cbn.
  auto 10.
Qed.

Lemma setupConfiguration_diagnostics Invok ci :
  match setupConfiguration Invok ci with
  | Next c => Diagnostics c = Diagnostics ci
  | Leave (Return true) c =>
      Diagnostics c = Diagnostics ci ++ [error_clang_importer_not_linked_in] \/
      Diagnostics c = Diagnostics ci ++ [error_clang_importer_create_fail]
  | Leave _ c => Diagnostics c = Diagnostics ci
  end.
Proof. setup_cases; auto. Qed.

Lemma setupInputFiles_diagnostics Files ci :
  match setupInputFiles Files ci with
  | Next c => Diagnostics c = Diagnostics ci
  | Leave e c =>
      e = Return true /\
      exists File Err,
        File ∈ Files /\ getFileOrSTDIN File = inr Err /\
        Diagnostics c = Diagnostics ci ++ [error_open_input_file File Err]
  end.
Proof.
  revert ci. induction Files as [| f Files IH]; intros ci; [done |].
  cbn [setupInputFiles]. destruct (getFileOrSTDIN f) as [b | Err] eqn:Hf.
  - specialize (IH (snd (pushNewSourceBuffer b ci))).
    destruct (setupInputFiles Files _) as [c | e c]; [exact IH |].
    destruct IH as (-> & File & Err & Hin & Hbad & Hd).
    split; [done |]. exists File, Err. split; [by right | done].
  - split; [done |]. exists f, Err. split; [by left | done].
Qed.

Lemma setupCodeCompletion_never_returns ci r c :
  setupCodeCompletion ci <> Leave (Return r) c.
Proof.
  unfold setupCodeCompletion, addBufferCopy, setCodeCompletionPoint.
  destruct (fst (getCodeCompletionPoint (Invocation ci))); cbn; [| done].
  destruct (Memory ci !! _); cbn; [| done].
  by destruct (CodeCompletionPoint (SourceMgr ci)).
Qed.

Lemma setupInputBuffers_never_returns Bufs ci r c :
  setupInputBuffers Bufs ci <> Leave (Return r) c.
Proof.
  revert ci. induction Bufs as [| p Bufs IH]; intros ci; [done |].
  cbn [setupInputBuffers]. unfold addBufferCopy.
  destruct (Memory ci !! p); [| done].
  rewrite pushNewSourceBuffer_pair. apply IH.
Qed.

(** X4.  Of its own diagnostics, [setup] emits exactly one when it
    returns [true] (the importer is not linked in, the importer cannot be
    constructed, or a configured input file cannot be opened, with the
    message of its error) and none when it returns [false] or leaves in
    another way. *)
Theorem setup_diagnoses_what_it_returns Invok ci :
  match fst (setup Invok ci) with
  | Return true =>
      exists d,
        Diagnostics (snd (setup Invok ci)) = Diagnostics ci ++ [d] /\
        (d = error_clang_importer_not_linked_in \/
         d = error_clang_importer_create_fail \/
         exists File Err,
           File ∈ getInputFilenames Invok /\ getFileOrSTDIN File = inr Err /\
           d = error_open_input_file File Err)
  | _ => Diagnostics (snd (setup Invok ci)) = Diagnostics ci
  end.
Proof.
  unfold setup, setupFlow, setupBeforeInputs.
  pose proof (setupConfiguration_diagnostics Invok ci) as H1.
  pose proof (setupConfiguration_frame Invok ci) as Hfr. cbn zeta in Hfr.
  destruct Hfr as (Hinv & _).
  destruct (setupConfiguration Invok ci) as [c1 | e c1]; cbn [andThen flowState] in *.
  2:{ destruct e as [[] | | |]; cbn; [| done..].
      destruct H1 as [-> | ->]; eauto. }
  pose proof (setupCodeCompletion_others c1) as H2. cbn zeta in H2.
  destruct H2 as (_ & _ & _ & H2).
  pose proof (setupCodeCompletion_frame c1) as Hfr. cbn zeta in Hfr.
  destruct Hfr as (Hinv2 & _).
  destruct (setupCodeCompletion c1) as [c2 | e c2] eqn:Hrun2;
    cbn [andThen flowState] in *.
  2:{ destruct e as [r | | |]; cbn; try by rewrite ?H2, ?H1.
      by apply setupCodeCompletion_never_returns in Hrun2. }
  pose proof (setupInputFiles_diagnostics (getInputFilenames (Invocation c2)) c2) as H3.
  pose proof (setupInputFiles_frame (getInputFilenames (Invocation c2)) c2) as Hfr.
  cbn zeta in Hfr. destruct Hfr as (Hinv3 & _).
  rewrite Hinv2, Hinv in H3, Hinv3 |- *.
  destruct (setupInputFiles _ c2) as [c3 | e c3]; cbn [andThen flowState] in *.
  2:{ destruct H3 as (-> & File & Err & Hin & Hbad & Hd). cbn.
      rewrite Hd, H2, H1. eauto 10. }
  pose proof (setupInputBuffers_others (getInputBuffers (Invocation c3)) c3) as H4.
  cbn zeta in H4. destruct H4 as (_ & _ & _ & H4).
  destruct (setupInputBuffers _ c3) as [c4 | e c4] eqn:Hrun4; cbn [flowState] in *.
  - cbn. by rewrite H4, H3, H2, H1.
  - destruct e as [r | | |]; cbn; try by rewrite ?H4, ?H3, ?H2, ?H1.
    by apply setupInputBuffers_never_returns in Hrun4.
Qed.

(** ** When [setup] succeeds *)

Lemma setupConfiguration_passes Invok ci :
  match setupConfiguration Invok ci with
  | Next _ => importerFails Invok = false /\ isIdentifier (getModuleName Invok) = true
  | Leave _ _ => importerFails Invok = true \/ isIdentifier (getModuleName Invok) = false
  end.
Proof. setup_cases; auto. Qed.

Lemma setupCodeCompletion_passes ci :
  (forall p, fst (getCodeCompletionPoint (Invocation ci)) = Some p ->
     is_Some (Memory ci !! p)) ->
  (is_Some (fst (getCodeCompletionPoint (Invocation ci))) ->
     CodeCompletionPoint (SourceMgr ci) = None) ->
  exists c, setupCodeCompletion ci = Next c.
Proof.
  intros Hlive Hnone.
  unfold setupCodeCompletion, addBufferCopy, setCodeCompletionPoint.
  destruct (fst (getCodeCompletionPoint (Invocation ci))) as [p |]; [| eauto].
  destruct (Hlive p eq_refl) as [b ->]. cbn. rewrite Hnone by eauto. eauto.
Qed.

Lemma setupInputFiles_passes Files ci :
  Forall (fun f => exists b, getFileOrSTDIN f = inl b) Files ->
  exists c, setupInputFiles Files ci = Next c.
Proof.
  intros Hall. revert ci. induction Hall as [| f Files [b Hf] _ IH]; intros ci.
  - by exists ci.
  - cbn [setupInputFiles]. rewrite Hf. apply IH.
Qed.

Lemma setupInputBuffers_passes Bufs ci :
  Forall (fun p => is_Some (Memory ci !! p)) Bufs ->
  exists c, setupInputBuffers Bufs ci = Next c.
Proof.
  revert ci. induction Bufs as [| p Bufs IH]; intros ci Hlive.
  - by exists ci.
  - apply Forall_cons in Hlive as [[b Hb] Hlive].
    cbn [setupInputBuffers]. unfold addBufferCopy. rewrite Hb.
    rewrite pushNewSourceBuffer_pair. apply IH.
    eapply Forall_impl; [exact Hlive |].
    intros q [c Hc]. exists c.
    exact (lookup_weaken _ _ _ _ Hc
             (ingested_subseteq _ _ _ (ingested_push _ ci))).
Qed.

Lemma live_after_ingestion bs ci ci' (ps : list nat) :
  ingested bs ci ci' ->
  Forall (fun p => is_Some (Memory ci !! p)) ps ->
  Forall (fun p => is_Some (Memory ci' !! p)) ps.
Proof.
  intros Hin Hlive. eapply Forall_impl; [exact Hlive |].
  intros q [c Hc]. exists c.
  exact (lookup_weaken _ _ _ _ Hc (ingested_subseteq _ _ _ Hin)).
Qed.

(** X5.  Given live caller buffers and, when code completion is
    requested, a source manager that records no completion point yet,
    [setup] returns [false] exactly when it gets past the Clang importer
    (no SDK path, or an importer that is linked in and constructed), the
    module name is an identifier and every configured input file can be
    opened. *)
Theorem setup_succeeds_iff Invok ci :
  Forall (fun p => is_Some (Memory ci !! p)) (callerBuffers Invok) ->
  (is_Some (fst (getCodeCompletionPoint Invok)) ->
   CodeCompletionPoint (SourceMgr ci) = None) ->
  fst (setup Invok ci) = Return false <->
  importerFails Invok = false /\
  isIdentifier (getModuleName Invok) = true /\
  Forall (fun f => exists b, getFileOrSTDIN f = inl b) (getInputFilenames Invok).
Proof.
  intros Hlive Hpoint. split.
  - intros Hok. destruct (setup Invok ci) as [e ci'] eqn:Hrun. cbn in Hok. subst e.
    apply setup_success_steps in Hrun as (c1 & c2 & c3 & H1 & _ & H3 & _).
    pose proof (setupConfiguration_passes Invok ci) as Hpass. rewrite H1 in Hpass.
    destruct Hpass as (Himp & Hid).
    apply setupInputFiles_Next in H3 as (bufs & Hfiles & _).
    split; [done | split; [done |]].
    clear -Hfiles. induction Hfiles; constructor; eauto.
  - intros (Himp & Hid & Hfiles).
    unfold callerBuffers in Hlive. apply Forall_app in Hlive as (Hlcc & Hlm).
    pose proof (setupConfiguration_passes Invok ci) as Hpass.
    pose proof (setupConfiguration_frame Invok ci) as Hfr. cbn zeta in Hfr.
    destruct Hfr as (Hinv1 & Hmem1 & Hsm1 & _).
    destruct (setupConfiguration Invok ci) as [c1 | e c1] eqn:H1; cbn in *.
    2:{ destruct Hpass; congruence. }
    destruct (setupCodeCompletion_passes c1) as [c2 H2].
    { rewrite Hinv1, Hmem1. intros p Hp. rewrite Hp in Hlcc. cbn in Hlcc.
      by apply Forall_cons in Hlcc as [? _]. }
    { rewrite Hinv1, Hsm1. exact Hpoint. }
    pose proof (setupCodeCompletion_frame c1) as Hfr. cbn zeta in Hfr.
    rewrite H2 in Hfr. cbn in Hfr. destruct Hfr as (Hinv2 & _ & bs2 & Hin2).
    destruct (setupInputFiles_passes (getInputFilenames Invok) c2 Hfiles) as [c3 H3].
    pose proof (setupInputFiles_Next _ _ _ H3) as (bs3 & _ & Hin3 & Hfr3).
    apply onlyBuffersDiffer_fields in Hfr3 as (Hinv3 & _).
    destruct (setupInputBuffers_passes (getInputBuffers Invok) c3) as [c4 H4].
    { apply (live_after_ingestion bs3 c2); [done |].
      apply (live_after_ingestion bs2 c1); [done |]. by rewrite Hmem1. }
    unfold setup, setupFlow, setupBeforeInputs. rewrite H1. cbn [andThen].
    rewrite H2. cbn [andThen]. rewrite Hinv2, Hinv1, H3. cbn [andThen].
    by rewrite Hinv3, Hinv2, Hinv1, H4.
Qed.

(** ** An invariant of the buffers *)

Lemma buffersWellFormed_frame ci ci' :
  Memory ci' = Memory ci -> Buffers (SourceMgr ci') = Buffers (SourceMgr ci) ->
  BufferIDs ci' = BufferIDs ci ->
  buffersWellFormed ci -> buffersWellFormed ci'.
Proof. unfold buffersWellFormed. by intros -> -> ->. Qed.

Lemma buffersWellFormed_push b ci :
  buffersWellFormed ci -> buffersWellFormed (snd (pushNewSourceBuffer b ci)).
Proof.
  intros (Hnd & Hlive & Hndi & Hlt). unfold buffersWellFormed. cbn.
  pose proof (fresh_address_free (Memory ci)) as Hfresh.
  split_and!.
  - apply NoDup_app. split; [done | split; [| apply NoDup_singleton]].
    intros p Hp ->%list_elem_of_singleton.
    eapply Forall_forall in Hlive; [| exact Hp].
    destruct Hlive as [c Hc]. congruence.
  - apply Forall_app. split.
    + eapply Forall_impl; [exact Hlive |]. intros p [c Hc]. exists c.
      rewrite lookup_insert_ne; [done |]. intros <-. congruence.
    + constructor; [| constructor]. rewrite lookup_insert_eq. eauto.
  - apply NoDup_app. split; [done | split; [| apply NoDup_singleton]].
    intros i Hi ->%list_elem_of_singleton.
    eapply Forall_forall in Hlt; [| exact Hi]. lia.
  - rewrite length_app. cbn. apply Forall_app. split.
    + eapply Forall_impl; [exact Hlt |]. intros i Hi. cbn in Hi. lia.
    + constructor; [lia | constructor].
Qed.

Lemma flowState_andThen_invariant (P : CompilerInstance -> Prop)
    (m : Flow bool) (k : CompilerInstance -> Flow bool) :
  P (flowState m) ->
  (forall c, P c -> P (flowState (k c))) ->
  P (flowState (andThen m k)).
Proof. intros Hm Hk. destruct m; cbn in *; auto. Qed.

Lemma buffersWellFormed_setupCodeCompletion ci :
  buffersWellFormed ci -> buffersWellFormed (flowState (setupCodeCompletion ci)).
Proof.
  intros Hwf. unfold setupCodeCompletion, addBufferCopy, setCodeCompletionPoint.
  destruct (fst (getCodeCompletionPoint (Invocation ci))); cbn; [| done].
  destruct (Memory ci !! _) as [b |]; cbn; [| done].
  rewrite MemoryBuffer_eta.
  pose proof (buffersWellFormed_push b ci Hwf) as Hpush.
  by destruct (CodeCompletionPoint (SourceMgr ci)).
Qed.

Lemma buffersWellFormed_setupInputFiles Files ci :
  buffersWellFormed ci -> buffersWellFormed (flowState (setupInputFiles Files ci)).
Proof.
  revert ci. induction Files as [| f Files IH]; intros ci Hwf; [done |].
  cbn [setupInputFiles]. destruct (getFileOrSTDIN f) as [b | Err]; [| done].
  by apply IH, buffersWellFormed_push.
Qed.

Lemma buffersWellFormed_setupInputBuffers Bufs ci :
  buffersWellFormed ci -> buffersWellFormed (flowState (setupInputBuffers Bufs ci)).
Proof.
  revert ci. induction Bufs as [| p Bufs IH]; intros ci Hwf; [done |].
  cbn [setupInputBuffers]. unfold addBufferCopy.
  destruct (Memory ci !! p) as [b |]; [| done].
  rewrite pushNewSourceBuffer_pair. by apply IH, buffersWellFormed_push.
Qed.

(** X6.  [setup] keeps the buffers well formed, whatever way it leaves:
    if the source manager owned distinct live buffers and [BufferIDs]
    listed distinct ids of them, so it is afterwards; the ids and
    buffers that were there are still there, in front; and every id of
    [BufferIDs] stands for a buffer. *)
Theorem setup_keeps_buffers_well_formed Invok ci :
  buffersWellFormed ci ->
  let ci' := snd (setup Invok ci) in
  buffersWellFormed ci' /\
  BufferIDs ci `prefix_of` BufferIDs ci' /\
  Buffers (SourceMgr ci) `prefix_of` Buffers (SourceMgr ci') /\
  forall BufferID, BufferID ∈ BufferIDs ci' -> is_Some (bufferOfID ci' BufferID).
Proof.
  intros Hwf. cbn zeta.
  assert (buffersWellFormed (snd (setup Invok ci))) as Hwf'.
  { rewrite setup_state. unfold setupFlow, setupBeforeInputs.
    apply flowState_andThen_invariant;
      [apply flowState_andThen_invariant;
         [apply flowState_andThen_invariant | ] | ].
    - pose proof (setupConfiguration_frame Invok ci) as Hfr. cbn zeta in Hfr.
      destruct Hfr as (_ & Hm & Hs & Hi & _).
      eapply buffersWellFormed_frame; [exact Hm | by rewrite Hs | exact Hi | exact Hwf].
    - intros c. apply buffersWellFormed_setupCodeCompletion.
    - intros c. apply buffersWellFormed_setupInputFiles.
    - intros c. apply buffersWellFormed_setupInputBuffers. }
  destruct (setup_ingested Invok ci) as (bs & qs & Hb & Hi & _).
  split_and!.
  - exact Hwf'.
  - rewrite Hi. by eexists.
  - rewrite Hb. by eexists.
  - intros id Hid. destruct Hwf' as (_ & Hlive & _ & Hlt).
    eapply Forall_forall in Hlt; [| exact Hid].
    destruct (lookup_lt_is_Some_2 _ _ Hlt) as [p Hp].
    unfold bufferOfID. rewrite Hp. cbn.
    eapply Forall_forall in Hlive; [exact Hlive |].
    by eapply list_elem_of_lookup_2.
Qed.

(** ** [doIt]: the hashbang buffer and the REPL *)

Lemma leave_SourceMgr e r ci : SourceMgr (instance (leave e r ci)) = SourceMgr ci.
Proof.
  unfold leave, storeSingleInputFile. cbn.
  by destruct (TU ci), (Context ci).
Qed.

Lemma parseAndCheck_SourceMgr fuel ci r :
  SourceMgr (snd (parseAndCheck fuel ci r)) =
  match getInputKind (Invocation ci), BufferIDs ci with
  | Main, [BufferID] =>
      mkSourceManager (Buffers (SourceMgr ci)) (CodeCompletionPoint (SourceMgr ci))
        (Some BufferID)
  | _, _ => SourceMgr ci
  end.
Proof.
  unfold parseAndCheck, markHashbang.
  destruct (getInputKind (Invocation ci)); cbn.
  - by destruct (parseAll _ _ _ _) as [[] ?].
  - destruct (BufferIDs ci) as [| b [| b' l]]; [done | | done].
    by destruct (pump _ _ _ _ _) as [[] ?].
  - done.
  - destruct (BufferIDs ci) as [| b [| b' l]]; [done | | done].
    by destruct (pump _ _ _ _ _) as [[] ?].
Qed.

Lemma doIt_SourceMgr fuel ci ctx :
  Context ci = Some ctx ->
  SourceMgr (instance (doIt fuel ci)) =
  match getInputKind (Invocation ci), BufferIDs ci with
  | Main, [BufferID] =>
      mkSourceManager (Buffers (SourceMgr ci)) (CodeCompletionPoint (SourceMgr ci))
        (Some BufferID)
  | _, _ => SourceMgr ci
  end.
Proof.
  intros Hctx. rewrite (doIt_eq _ _ _ Hctx). cbn zeta.
  rewrite leave_SourceMgr, parseAndCheck_SourceMgr. reflexivity.
Qed.

(** X7.  [doIt] records a hashbang buffer only for a main file that has
    its one buffer, and then it is that buffer, also when the run does
    not finish; for a library, the REPL, a SIL file, or a main module
    whose assertion on the number of inputs fails, the hashbang buffer
    of the source manager is the one recorded before, if any. *)
Theorem doIt_marks_hashbang_buffer fuel ci ctx :
  Context ci = Some ctx ->
  HashbangBufferID (SourceMgr (instance (doIt fuel ci))) =
  match getInputKind (Invocation ci), BufferIDs ci with
  | Main, [BufferID] => Some BufferID
  | _, _ => HashbangBufferID (SourceMgr ci)
  end.
Proof.
  intros Hctx. rewrite (doIt_SourceMgr fuel ci ctx Hctx).
  by destruct (getInputKind (Invocation ci)), (BufferIDs ci) as [| ? [| ? ?]].
Qed.

(** X8.  For the REPL, [doIt] creates and registers the translation unit
    with one empty source file and returns: it calls neither the parser
    nor the type checker nor the delayed parser, whatever buffers are
    registered and whether or not code completion is requested. *)
Theorem doIt_repl_parses_nothing fuel ci ctx :
  Context ci = Some ctx ->
  getInputKind (Invocation ci) = REPL ->
  exit (doIt fuel ci) = Return tt /\
  trace (doIt fuel ci) = [] /\
  singleInputFile (instance (doIt fuel ci)) =
    Some (mkSourceFile REPL (getParseStdlib (Invocation ci)) []) /\
  exists ctx',
    Context (instance (doIt fuel ci)) = Some ctx' /\
    LoadedModules ctx' !! getModuleName (Invocation ci) = TU (instance (doIt fuel ci)).
Proof.
  intros Hctx Hkind.
  destruct (doIt_parts fuel ci ctx Hctx) as (He & Ht & Hf).
  destruct (doIt_instance fuel ci ctx Hctx) as (ctx' & SF & Hc & Htu & Hl & _).
  cbn zeta in He, Ht, Hf.
  assert (parseAndCheck fuel (fst (startTranslationUnit ctx ci))
            (snd (startTranslationUnit ctx ci)) =
          (Return tt, snd (startTranslationUnit ctx ci),
           fst (startTranslationUnit ctx ci))) as Hbody.
  { unfold parseAndCheck.
    change (getInputKind (Invocation (fst (startTranslationUnit ctx ci))))
      with (getInputKind (Invocation ci)).
    by rewrite Hkind. }
  rewrite Hbody in He, Ht, Hf. cbn [fst snd] in He, Ht, Hf.
  split_and!; [exact He | exact Ht | | ].
  - rewrite Hf. cbn. by rewrite Hkind.
  - exists ctx'. split; [exact Hc |]. rewrite Htu, Hl. apply lookup_insert_eq.
Qed.

(** ** [doIt]: the delayed parser *)

Lemma delayedParsingCalls_app (tr1 tr2 : list Event) :
  delayedParsingCalls (tr1 ++ tr2) = delayedParsingCalls tr1 ++ delayedParsingCalls tr2.
Proof. apply omap_app. Qed.

Lemma delayedParsingCalls_ParseCall (ids : list nat) :
  delayedParsingCalls (ParseCall <$> ids) = [].
Proof. induction ids as [| b ids IH]; [done | exact IH]. Qed.

Lemma parseAll_delayedParsingCalls ci cb ids r :
  delayedParsingCalls (Trace (snd (parseAll ci cb ids r))) =
  delayedParsingCalls (Trace r).
Proof.
  destruct (parseAll_Trace ci cb ids r) as (n & -> & _).
  by rewrite delayedParsingCalls_app, delayedParsingCalls_ParseCall, app_nil_r.
Qed.

Lemma pumpTimes_delayedParsingCalls ci cb b n p :
  delayedParsingCalls (Trace (Parsed (pumpTimes n ci cb b p))) =
  delayedParsingCalls (Trace (Parsed p)).
Proof.
  induction n as [| n IH]; [done |].
  rewrite pumpTimes_S.
  destruct (pumpOnce_spec ci cb b (pumpTimes n ci cb b p)) as (_ & _ & ->).
  rewrite delayedParsingCalls_app, IH.
  destruct (getParseOnly (Invocation ci)); cbn; by rewrite app_nil_r.
Qed.

Lemma selectDelayedCB_wanted ci :
  isCodeCompletion (Invocation ci) || isDelayedFunctionBodyParsing (Invocation ci) =
  bool_decide (is_Some (selectDelayedCB ci)).
Proof.
  unfold selectDelayedCB.
  destruct (isCodeCompletion (Invocation ci)),
    (isDelayedFunctionBodyParsing (Invocation ci)); cbn;
    first [ reflexivity
          | symmetry; apply bool_decide_eq_true_2; eauto
          | symmetry; apply bool_decide_eq_false_2; by intros [? ?] ].
Qed.

Lemma parseAndCheck_delayed fuel ci r :
  delayedParsingCalls (Trace r) = [] ->
  let e := fst (fst (parseAndCheck fuel ci r)) in
  let tr := Trace (snd (fst (parseAndCheck fuel ci r))) in
  match e with
  | Return _ =>
      if bool_decide (getInputKind (Invocation ci) = REPL)
         || negb (isCodeCompletion (Invocation ci)
                  || isDelayedFunctionBodyParsing (Invocation ci))
      then delayedParsingCalls tr = []
      else exists tr', tr = tr' ++ [DelayedParsingCall] /\ delayedParsingCalls tr' = []
  | _ => delayedParsingCalls tr = []
  end.
Proof.
  intros Hnone. cbn zeta. rewrite selectDelayedCB_wanted.
  unfold parseAndCheck.
  destruct (bool_decide (getInputKind (Invocation ci) = REPL)) eqn:Hrepl; [done |].
  cbn [orb].
  destruct (bool_decide (getInputKind (Invocation ci) = Library)).
  - pose proof (parseAll_delayedParsingCalls ci (selectDelayedCB ci) (BufferIDs ci) r)
      as Hpa.
    destruct (parseAll _ _ _ _) as [done r1]. cbn [snd] in Hpa.
    rewrite Hnone in Hpa.
    destruct done; cbn [fst snd]; [| done].
    assert (delayedParsingCalls
              (Trace (if getParseOnly (Invocation ci) then r1
                      else performTypeChecking 0 r1)) = []) as Hr.
    { destruct (getParseOnly (Invocation ci)); [done |].
      cbn [Trace performTypeChecking].
      by rewrite delayedParsingCalls_app, Hpa. }
    rewrite delayedParsing_Trace.
    destruct (selectDelayedCB ci); cbn.
    + eauto.
    + by rewrite app_nil_r.
  - destruct (negb _); [done |].
    destruct (BufferIDs ci) as [| b [| b' l]]; [done | | done].
    destruct (pump_times (markHashbang b ci) (selectDelayedCB ci) b fuel
                (pumpStart (markHashbang b ci) r)) as (k & _ & Hk).
    pose proof (pumpTimes_delayedParsingCalls (markHashbang b ci) (selectDelayedCB ci) b
                  k (pumpStart (markHashbang b ci) r)) as Hpt.
    destruct (pump fuel _ _ b _) as [finished p]. cbn [snd] in Hk. subst p.
    cbn [pumpStart Parsed] in Hpt. rewrite Hnone in Hpt.
    destruct finished; cbn [fst snd]; [| done].
    rewrite delayedParsing_Trace.
    destruct (selectDelayedCB ci); cbn.
    + eauto.
    + by rewrite app_nil_r.
Qed.

(** X9.  [doIt] calls the delayed parser at most once, as the very last
    thing it does, exactly when it returns, the input is not for the
    REPL, and code completion or delayed parsing of function bodies is
    requested; a run that fails an assertion or does not finish never
    calls it. *)
Theorem doIt_delayed_parsing fuel ci :
  match exit (doIt fuel ci) with
  | Return _ =>
      if bool_decide (getInputKind (Invocation ci) = REPL)
         || negb (isCodeCompletion (Invocation ci)
                  || isDelayedFunctionBodyParsing (Invocation ci))
      then delayedParsingCalls (trace (doIt fuel ci)) = []
      else exists tr,
             trace (doIt fuel ci) = tr ++ [DelayedParsingCall] /\
             delayedParsingCalls tr = []
  | _ => delayedParsingCalls (trace (doIt fuel ci)) = []
  end.
Proof.
  destruct (Context ci) as [ctx |] eqn:Hctx.
  - destruct (doIt_parts fuel ci ctx Hctx) as (-> & -> & _). cbn zeta.
    by apply (parseAndCheck_delayed fuel (fst (startTranslationUnit ctx ci))).
  - unfold doIt. by rewrite Hctx.
Qed.

(** ** [doIt]: a library whose parser returns early *)

Lemma parseAll_early ci cb (doneOf : nat -> bool) pre b post r :
  Kind (SingleInputFile r) = Library ->
  (forall SF BufferID ps,
     Kind SF = Library ->
     IsDone (parseIntoTranslationUnit (SourceMgr ci) (Memory ci) SF BufferID
               None ps cb) = doneOf BufferID) ->
  Forall (fun BufferID => doneOf BufferID = true) pre ->
  doneOf b = false ->
  exists r',
    parseAll ci cb (pre ++ b :: post) r = (false, r') /\
    Trace r' = Trace r ++ (ParseCall <$> pre ++ [b]).
Proof.
  intros Hkind Hparser Hpre Hb. revert r Hkind.
  induction Hpre as [| a pre Ha _ IH]; intros r Hkind.
  - cbn [app parseAll]. unfold callParser.
    rewrite (Hparser _ _ _ Hkind), Hb. eauto.
  - cbn [app parseAll]. unfold callParser.
    rewrite (Hparser _ _ _ Hkind), Ha.
    match goal with
    | |- context [parseAll ci cb _ ?r0] =>
        destruct (IH r0) as (r' & Hrun & Htr); [exact Hkind |]
    end.
    rewrite Hrun. exists r'. split; [done |].
    rewrite Htr. cbn. by rewrite <- app_assoc.
Qed.

(** X10.  For a library, when the parser reports [Done] on the buffers
    before [b] and not on [b], [doIt] fails the assertion on [Done]
    right after that call: the parser has been called on the buffers up
    to [b] and on no later one, and neither the type checker nor the
    delayed parser is called. *)
Theorem library_parser_returns_early fuel ci ctx (doneOf : nat -> bool) pre b post :
  Context ci = Some ctx ->
  getInputKind (Invocation ci) = Library ->
  BufferIDs ci = pre ++ b :: post ->
  (forall SF BufferID ps,
     Kind SF = Library ->
     IsDone (parseIntoTranslationUnit (SourceMgr ci) (Memory ci) SF BufferID
               None ps (selectDelayedCB ci)) = doneOf BufferID) ->
  Forall (fun BufferID => doneOf BufferID = true) pre ->
  doneOf b = false ->
  exit (doIt fuel ci) = AssertionFailed "Parser returned early?" /\
  parseCalls (trace (doIt fuel ci)) = pre ++ [b] /\
  typeCheckCalls (trace (doIt fuel ci)) = [] /\
  delayedParsingCalls (trace (doIt fuel ci)) = [].
Proof.
  intros Hctx Hkind Hids Hparser Hpre Hb.
  destruct (doIt_parts fuel ci ctx Hctx) as (He & Ht & _).
  cbn zeta in He, Ht.
  set (s := startTranslationUnit ctx ci) in *.
  destruct (parseAll_early (fst s) (selectDelayedCB (fst s)) doneOf pre b post (snd s))
    as (r' & Hrun & Htr); [exact Hkind | exact Hparser | exact Hpre | exact Hb |].
  assert (parseAndCheck fuel (fst s) (snd s) =
          (AssertionFailed "Parser returned early?", r', fst s)) as Hbody.
  { rewrite parseAndCheck_library by exact Hkind.
    change (BufferIDs (fst s)) with (BufferIDs ci). by rewrite Hids, Hrun. }
  rewrite Hbody in He, Ht. cbn [fst snd] in He, Ht.
  change (Trace (snd s)) with (@nil Event) in Htr. cbn [app] in Htr.
  rewrite Ht, Htr.
  split; [exact He |].
  by rewrite parseCalls_ParseCall, typeCheckCalls_ParseCall,
    delayedParsingCalls_ParseCall.
Qed.

(** ** [doIt]: when the pump loop is left *)

Lemma pump_finished_iff ci cb b fuel p :
  fst (pump fuel ci cb b p) = true <->
  exists n, n < fuel /\ Done (pumpTimes (S n) ci cb b p) = true.
Proof.
  revert p. induction fuel as [| fuel IH]; intros p.
  - cbn. split; [done |]. intros (n & Hn & _). lia.
  - cbn [pump]. destruct (Done (pumpOnce ci cb b p)) eqn:Hd.
    + split; [| done]. intros _. exists 0. split; [lia | exact Hd].
    + rewrite IH. split.
      * intros (n & Hn & Hdone). exists (S n). split; [lia | exact Hdone].
      * intros ([| n] & Hn & Hdone).
        -- change (pumpTimes 1 ci cb b p) with (pumpOnce ci cb b p) in Hdone.
           congruence.
        -- exists n. split; [lia | exact Hdone].
Qed.

Lemma pump_unfinished ci cb b fuel p :
  fst (pump fuel ci cb b p) = false ->
  snd (pump fuel ci cb b p) = pumpTimes fuel ci cb b p.
Proof.
  revert p. induction fuel as [| fuel IH]; intros p; [done |].
  cbn [pump pumpTimes]. destruct (Done (pumpOnce ci cb b p)); [done |]. apply IH.
Qed.

(** X11.  For a main or SIL input with its one buffer, the pump loop is
    left only when the parser reports [Done]: [doIt] returns exactly
    when some iteration within the fuel reports [Done], and otherwise it
    is still in the loop when the fuel is used up, having called the
    parser once per iteration; it leaves in no other way.  So with a
    parser that never reports [Done], [doIt] does not return. *)
Theorem doIt_returns_iff_parser_done fuel ci ctx BufferID :
  Context ci = Some ctx ->
  getInputKind (Invocation ci) = Main \/ getInputKind (Invocation ci) = SIL ->
  BufferIDs ci = [BufferID] ->
  let start := startTranslationUnit ctx ci in
  let ci' := markHashbang BufferID (fst start) in
  let P n := pumpTimes n ci' (selectDelayedCB ci) BufferID
               (pumpStart ci' (snd start)) in
  (exit (doIt fuel ci) = Return tt <->
   exists n, n < fuel /\ Done (P (S n)) = true) /\
  (exit (doIt fuel ci) = OutOfFuel <->
   forall n, n < fuel -> Done (P (S n)) = false) /\
  (exit (doIt fuel ci) = Return tt \/ exit (doIt fuel ci) = OutOfFuel) /\
  (exit (doIt fuel ci) = OutOfFuel ->
   parseCalls (trace (doIt fuel ci)) = replicate fuel BufferID).
Proof.
  intros Hctx Hkind Hids start ci' P.
  destruct (doIt_parts fuel ci ctx Hctx) as (He & Ht & _).
  cbn zeta in He, Ht. fold start in He, Ht.
  rewrite (parseAndCheck_pump _ _ _ BufferID) in He, Ht by done.
  cbn zeta in He, Ht. fold ci' in He, Ht.
  change (selectDelayedCB (fst start)) with (selectDelayedCB ci) in He, Ht.
  pose proof (pump_finished_iff ci' (selectDelayedCB ci) BufferID fuel
                (pumpStart ci' (snd start))) as Hiff.
  pose proof (pump_unfinished ci' (selectDelayedCB ci) BufferID fuel
                (pumpStart ci' (snd start))) as Hun.
  destruct (pump fuel ci' (selectDelayedCB ci) BufferID (pumpStart ci' (snd start)))
    as [finished p].
  cbn [fst snd] in Hiff, Hun.
  destruct finished; cbn [fst snd] in He, Ht; rewrite He.
  - destruct (proj1 Hiff eq_refl) as (n & Hn & Hdone).
    split_and!.
    + split; [by exists n | done].
    + split; [done |]. intros Hnever. specialize (Hnever n Hn).
      unfold P in Hnever. congruence.
    + by left.
    + done.
  - assert (forall n, n < fuel -> Done (P (S n)) = false) as Hnever.
    { intros n Hn. destruct (Done (P (S n))) eqn:Hd; [| done].
      assert (false = true) by (apply Hiff; by exists n). done. }
    split_and!.
    + split; [done |]. intros (n & Hn & Hdone).
      specialize (Hnever n Hn). congruence.
    + done.
    + by right.
    + intros _. rewrite Ht, (Hun eq_refl), pumpTimes_parseCalls. done.
Qed.

(** ** [setup] followed by [doIt] *)

(** X12.  After a successful [setup] of an instance that holds no buffer
    id yet, [doIt] for a main or SIL input fails its assertion on the
    number of inputs exactly when the invocation does not supply one
    input in all, counting the code completion buffer, the input files
    and the in-memory buffers: a code completion buffer next to an input
    file is one input too many. *)
Theorem main_needs_one_input_in_all Invok ci ci' fuel :
  BufferIDs ci = [] ->
  setup Invok ci = (Return false, ci') ->
  getInputKind Invok = Main \/ getInputKind Invok = SIL ->
  length (BufferIDs ci') =
    length (callerBuffers Invok) + length (getInputFilenames Invok) /\
  (exit (doIt fuel ci') = AssertionFailed "This mode only allows one input" <->
   length (callerBuffers Invok) + length (getInputFilenames Invok) <> 1).
Proof.
  intros Hfresh Hrun Hkind.
  pose proof (setup_Invocation Invok ci) as Hinv.
  pose proof (setup_Context Invok ci) as [ctx Hctx].
  rewrite Hrun in Hinv, Hctx. cbn [snd] in Hinv, Hctx.
  apply setup_success in Hrun
    as (ccBufs & fileBufs & memBufs & Hcc & Hfiles & Hmems & Hin & _).
  assert (length (BufferIDs ci') =
          length (callerBuffers Invok) + length (getInputFilenames Invok)) as Hlen.
  { destruct Hin as (qs & _ & -> & _). rewrite Hfresh. cbn [app].
    unfold callerBuffers.
    rewrite length_seq, !length_app, (Forall2_length _ _ _ Hcc),
      (Forall2_length _ _ _ Hfiles), (Forall2_length _ _ _ Hmems). lia. }
  split; [exact Hlen |]. rewrite <- Hlen. rewrite <- Hinv in Hkind. split.
  - intros He Hone.
    destruct (BufferIDs ci') as [| b [| b' l]] eqn:Hids; [done | | done].
    destruct (doIt_parts fuel ci' ctx Hctx) as (Hexit & _).
    cbn zeta in Hexit.
    rewrite (parseAndCheck_pump _ _ _ b) in Hexit by done.
    cbn zeta in Hexit. destruct (pump _ _ _ _ _) as [[] p]; cbn in Hexit; congruence.
  - intros Hlen'. by apply (doIt_asserts_one_input fuel ci' ctx).
Qed.

End MoreProperties.

(** * The theorems at concrete inputs *)

(** C1, at the main file "xyz": three iterations, three declarations,
    checked from the cursors 0, 1 and 2. *)
Lemma pump_checked_cursor_witness :
  Context mainXYZ <> None /\
  getInputKind (Invocation mainXYZ) = Main /\
  BufferIDs mainXYZ = [0] /\
  getParseOnly (Invocation mainXYZ) = false /\
  CurTUElem (mainXYZPump 0) = 0 /\
  CurTUElem (mainXYZPump 1) = 1 /\
  CurTUElem (mainXYZPump 2) = 2 /\
  CurTUElem (mainXYZPump 3) = 3 /\
  exit (doIt 2 mainXYZ) = OutOfFuel /\
  typeCheckCalls (trace (doIt 2 mainXYZ)) =
    [(mainFile "x", 0); (mainFile "xy", 1)] /\
  exit (doIt 3 mainXYZ) = Return tt /\
  trace (doIt 3 mainXYZ) =
    [ParseCall 0; TypeCheckCall (mainFile "x") 0;
     ParseCall 0; TypeCheckCall (mainFile "xy") 1;
     ParseCall 0; TypeCheckCall (mainFile "xyz") 2] /\
  typeCheckCalls (trace (doIt 3 mainXYZ)) =
    [(mainFile "x", 0); (mainFile "xy", 1); (mainFile "xyz", 2)] /\
  singleInputFile (instance (doIt 3 mainXYZ)) = Some (mainFile "xyz") /\
  length (parseCalls (trace (doIt 3 mainXYZ))) = 3 /\
  length (typeCheckCalls (trace (doIt 3 mainXYZ))) = 3 /\
  length (parseCalls (trace (doIt 3 mainXYZ))) <= 3.
Proof.
  assert (Context mainXYZ = Some (default (mkASTContext [] [] ∅ []) (Context mainXYZ)))
    as Hctx by (vm_compute; reflexivity).
  assert (getInputKind (Invocation mainXYZ) = Main) as Hkind by (vm_compute; reflexivity).
  assert (BufferIDs mainXYZ = [0]) as Hids by (vm_compute; reflexivity).
  assert (getParseOnly (Invocation mainXYZ) = false) as Honly by (vm_compute; reflexivity).
  split; [by rewrite Hctx |].
  split; [exact Hkind |]. split; [exact Hids |]. split; [exact Honly |].
  destruct (pump_checked_cursor mainXYZ _ 0 Hctx (or_introl Hkind) Hids Honly)
    as (Hstart & _ & Hiter & Hloop & Hfinish).
  assert (forall n, CurTUElem (mainXYZPump (S n)) =
                    length (declsOfPump (mainXYZPump (S n)))) as Hcursor
    by (intros n; exact (proj1 (proj2 (Hiter n)))).
  split; [exact Hstart |].
  split; [rewrite Hcursor; vm_compute; reflexivity |].
  split; [rewrite Hcursor; vm_compute; reflexivity |].
  split; [rewrite Hcursor; vm_compute; reflexivity |].
  destruct (Hloop 2) as (He2 & _ & Hc2).
  { intros [| [| j]] Hj; [vm_compute; reflexivity | vm_compute; reflexivity | lia]. }
  split; [exact He2 |].
  split; [rewrite Hc2; vm_compute; reflexivity |].
  destruct (Hfinish 2 3) as (He & Hf & _ & Ht & Hc & _ & Hp & Hl & _ & Hbound).
  - vm_compute. reflexivity.
  - intros [| [| j]] Hj; [vm_compute; reflexivity | vm_compute; reflexivity | lia].
  - lia.
  - split; [exact He |].
    split; [rewrite Ht; vm_compute; reflexivity |].
    split; [rewrite Hc; vm_compute; reflexivity |].
    split; [rewrite Hf; vm_compute; reflexivity |].
    split; [exact Hp |]. split; [exact Hl |].
    apply Hbound.
    (intros [| [| [| j]]] Hj; [vm_compute; lia | vm_compute; lia | vm_compute; lia | lia]).
Defined.

(** C1 as stated fails at an empty main file: the loop body runs once,
    the file has no declaration, and 1 is not between 1 and 0. *)
Lemma pump_iterations_counterexample :
  getInputKind (Invocation mainEmpty) = Main /\
  BufferIDs mainEmpty = [0] /\
  getParseOnly (Invocation mainEmpty) = false /\
  bufferOfID mainEmpty 0 = Some (mkMemoryBuffer "" "<second>") /\
  exit (doIt 10 mainEmpty) = Return tt /\
  Decls <$> singleInputFile (instance (doIt 10 mainEmpty)) = Some [] /\
  parseCalls (trace (doIt 10 mainEmpty)) = [0] /\
  ~ (1 <= length (parseCalls (trace (doIt 10 mainEmpty))) <= 0).
Proof.
  assert (parseCalls (trace (doIt 10 mainEmpty)) = [0]) as Hcalls
    by (vm_compute; reflexivity).
  split_and!; try (vm_compute; reflexivity).
  rewrite Hcalls. cbn. lia.
Qed.

(** C2, at a library of five buffers. *)
Lemma library_parses_all_then_checks_once_witness :
  getInputKind (Invocation libraryInstance) = Library /\
  exit (doIt 0 libraryInstance) = Return tt /\
  parseCalls (trace (doIt 0 libraryInstance)) = [0; 1; 2; 3; 4] /\
  length (typeCheckCalls (trace (doIt 0 libraryInstance))) = 1 /\
  Decls <$> singleInputFile (instance (doIt 0 libraryInstance)) =
    Some (list_ascii_of_string "xyzabcxyz").
Proof.
  assert (Context libraryInstance =
          Some (default (mkASTContext [] [] ∅ []) (Context libraryInstance)))
    as Hctx by (vm_compute; reflexivity).
  assert (getInputKind (Invocation libraryInstance) = Library) as Hkind
    by (vm_compute; reflexivity).
  destruct (library_parses_all_then_checks_once 0 libraryInstance _
              (bufferText (SourceMgr libraryInstance) (Memory libraryInstance))
              Hctx Hkind)
    as (He & Hf & _ & Hp & Hc).
  { intros [k a ds] id ps HSF _. cbn [Kind] in HSF. subst k.
    split; reflexivity. }
  split; [exact Hkind |]. split; [exact He |]. split; [| split].
  - rewrite Hp. vm_compute. reflexivity.
  - rewrite Hc. vm_compute. reflexivity.
  - rewrite Hf. vm_compute. reflexivity.
Defined.

(** C3, at a parse-only main file. *)
Lemma parse_only_never_type_checks_witness :
  getParseOnly (Invocation mainXYZParseOnly) = true /\
  parseCalls (trace (doIt 5 mainXYZParseOnly)) = [0; 0; 0] /\
  typeCheckCalls (trace (doIt 5 mainXYZParseOnly)) = [].
Proof.
  assert (getParseOnly (Invocation mainXYZParseOnly) = true) as Honly
    by (vm_compute; reflexivity).
  split; [exact Honly |]. split; [vm_compute; reflexivity |].
  apply (parse_only_never_type_checks 5 mainXYZParseOnly Honly).
Defined.

(** C5, at five paths of which the third cannot be opened. *)
Lemma setup_fails_fast_on_input_witness :
  fst (setup fivePaths freshInstance) = Return true /\
  Diagnostics (snd (setup fivePaths freshInstance)) =
    [error_open_input_file "c.swift" "No such file or directory"] /\
  BufferIDs (snd (setup fivePaths freshInstance)) = [0; 1] /\
  bufferOfID (snd (setup fivePaths freshInstance)) <$> [0; 1; 2; 3; 4] =
    [Some (mkMemoryBuffer "ab" "a.swift"); Some (mkMemoryBuffer "c" "b.swift");
     None; None; None].
Proof.
  assert (setupBeforeInputs fivePaths freshInstance =
          Next (flowState (setupBeforeInputs fivePaths freshInstance))) as Hbefore
    by (vm_compute; reflexivity).
  destruct (setup_fails_fast_on_input fivePaths freshInstance _
              ["a.swift"; "b.swift"] "c.swift" ["a.swift"; "b.swift"]
              [mkMemoryBuffer "ab" "a.swift"; mkMemoryBuffer "c" "b.swift"]
              "No such file or directory" Hbefore eq_refl)
    as (He & Hd & Hi & _).
  { repeat constructor. }
  { reflexivity. }
  split; [exact He |]. split; [| split].
  - rewrite Hd. vm_compute. reflexivity.
  - rewrite Hi. vm_compute. reflexivity.
  - vm_compute. reflexivity.
Defined.

(** C6, at an invocation with an SDK path, the importer not being
    linked in. *)
Lemma setup_without_clang_importer_witness :
  getSDKPath sdkInvocation <> "" /\
  fst (setup sdkInvocation freshInstance) = Return true /\
  Diagnostics (snd (setup sdkInvocation freshInstance)) =
    [error_clang_importer_not_linked_in] /\
  BufferIDs (snd (setup sdkInvocation freshInstance)) = [] /\
  Buffers (SourceMgr (snd (setup sdkInvocation freshInstance))) = [].
Proof.
  assert (getSDKPath sdkInvocation <> "") as Hsdk by done.
  destruct (setup_without_clang_importer (Sub := plainSubsystems)
              sdkInvocation freshInstance Hsdk eq_refl)
    as (He & Hd & _ & _ & _ & Hempty).
  destruct (Hempty eq_refl eq_refl) as (Hi & Hb).
  split; [exact Hsdk |]. split; [exact He |]. split; [exact Hd |].
  split; [exact Hi | exact Hb].
Defined.

(** C7, at a module name that starts with a digit, without and with an
    SDK path, and at a main module given two buffers. *)
Lemma contract_violations_abort_witness :
  (exists msg,
     fst (setup (plainInvocation Main false "9lives" [] [0] (None, 0)) freshInstance) =
       AssertionFailed msg) /\
  getSDKPath sdkNineLives <> "" /\
  fst (setup sdkNineLives freshInstance) = Return true /\
  BufferIDs mainTwoBuffers = [0; 1] /\
  (exists msg, exit (doIt 5 mainTwoBuffers) = AssertionFailed msg).
Proof.
  destruct (contract_violations_abort (Sub := plainSubsystems))
    as (Hsetup & Himporter & HdoIt).
  assert (getSDKPath sdkNineLives <> "") as Hsdk by (vm_compute; discriminate).
  split; [| split; [exact Hsdk | split; [| split]]].
  - destruct (Hsetup (plainInvocation Main false "9lives" [] [0] (None, 0))
                freshInstance eq_refl (or_introl eq_refl)) as (msg & He & _).
    by exists msg.
  - exact (proj1 (Himporter sdkNineLives freshInstance Hsdk (or_introl eq_refl))).
  - vm_compute. reflexivity.
  - assert (Context mainTwoBuffers =
            Some (default (mkASTContext [] [] ∅ []) (Context mainTwoBuffers)))
      as Hctx by (vm_compute; reflexivity).
    assert (getInputKind (Invocation mainTwoBuffers) = Main) as Hkind
      by (vm_compute; reflexivity).
    assert (length (BufferIDs mainTwoBuffers) <> 1) as Hlen
      by (vm_compute; lia).
    destruct (HdoIt 5 mainTwoBuffers _ Hctx (or_introl Hkind) Hlen) as (msg & He & _).
    by exists msg.
Defined.

(** C7 as stated fails where the Clang importer is asked for and not
    linked in: the module name is not an identifier, and [setup] returns
    [true] with a diagnostic instead of failing the assertion. *)
Lemma module_name_assertion_counterexample :
  @isIdentifier plainSubsystems (getModuleName sdkNineLives) = false /\
  fst (setup sdkNineLives freshInstance) = Return true /\
  Diagnostics (snd (setup sdkNineLives freshInstance)) =
    [error_clang_importer_not_linked_in] /\
  ~ (exists msg, fst (setup sdkNineLives freshInstance) = AssertionFailed msg).
Proof.
  assert (fst (setup sdkNineLives freshInstance) = Return true) as He
    by (vm_compute; reflexivity).
  split_and!; try (vm_compute; reflexivity).
  intros [msg Hmsg]. rewrite He in Hmsg. discriminate.
Qed.

(** C8, at the library above: the caller's two buffers are live, and the
    source manager holds copies of them at other addresses. *)
Lemma setup_copies_caller_buffers_witness :
  fst (setup libraryInvocation freshInstance) = Return false /\
  Memory libraryInstance !! 0 = Memory freshInstance !! 0 /\
  Memory libraryInstance !! 1 = Memory freshInstance !! 1 /\
  exists qcompletion qfiles qbuffers,
    newBuffers freshInstance libraryInstance = qcompletion ++ qfiles ++ qbuffers /\
    Forall2 (fun p q => q <> p /\ Memory libraryInstance !! q = Memory freshInstance !! p)
      [0] qcompletion /\
    length qfiles = 2 /\
    Forall2 (fun p q => q <> p /\ Memory libraryInstance !! q = Memory freshInstance !! p)
      [0; 1] qbuffers.
Proof.
  assert (fst (setup libraryInvocation freshInstance) = Return false) as Hok
    by (vm_compute; reflexivity).
  destruct (setup_copies_caller_buffers libraryInvocation freshInstance)
    as (Hsame & _ & _ & Hcopies).
  split; [exact Hok |]. split; [| split].
  - transitivity (Some (mkMemoryBuffer "xyz" "<first>"));
      [apply Hsame |]; vm_compute; reflexivity.
  - transitivity (Some (mkMemoryBuffer "" "<second>"));
      [apply Hsame |]; vm_compute; reflexivity.
  - apply (Hcopies Hok).
    repeat constructor; eexists; vm_compute; reflexivity.
Defined.

(** C9, at an instance whose context already holds a module "main". *)
Lemma doIt_registers_module_last_writer_wins_witness :
  (exists ctx, Context mainXYZAgain = Some ctx /\
     LoadedModules ctx !! "main" = Some 0) /\
  (exists ctx', Context (instance (doIt 3 mainXYZAgain)) = Some ctx' /\
     LoadedModules ctx' !! "main" = Some 1).
Proof.
  assert (Context mainXYZAgain =
          Some (default (mkASTContext [] [] ∅ []) (Context mainXYZAgain)))
    as Hctx by (vm_compute; reflexivity).
  split.
  - eexists. split; [exact Hctx |]. vm_compute. reflexivity.
  - destruct (doIt_registers_module_last_writer_wins 3 mainXYZAgain _ Hctx)
      as (ctx' & Hc & _ & _ & _ & _ & Hlookup & _).
    exists ctx'. split; [exact Hc |].
    assert (getModuleName (Invocation mainXYZAgain) = "main") as Hname
      by (vm_compute; reflexivity).
    assert (length (Modules (default (mkASTContext [] [] ∅ []) (Context mainXYZAgain))) = 1)
      as Hlen by (vm_compute; reflexivity).
    by rewrite Hname, Hlen in Hlookup.
Defined.

(** C10, at the library above: the completion buffer comes first, then
    the two files, then the two in-memory buffers. *)
Lemma setup_registers_buffers_in_order_witness :
  BufferIDs libraryInstance = [0; 1; 2; 3; 4] /\
  bufferOfID libraryInstance <$> BufferIDs libraryInstance =
    [Some (mkMemoryBuffer "xyz" "<first>");
     Some (mkMemoryBuffer "ab" "a.swift");
     Some (mkMemoryBuffer "c" "b.swift");
     Some (mkMemoryBuffer "xyz" "<first>");
     Some (mkMemoryBuffer "" "<second>")] /\
  CodeCompletionPoint (SourceMgr libraryInstance) = Some (0, 2) /\
  head (parseCalls (trace (doIt 0 libraryInstance))) = Some 0.
Proof.
  assert (BufferIDs libraryInstance = [0; 1; 2; 3; 4]) as Hids
    by (vm_compute; reflexivity).
  assert (setup libraryInvocation freshInstance = (Return false, libraryInstance))
    as Hrun by (vm_compute; reflexivity).
  assert (Forall (fun p => is_Some (Memory freshInstance !! p))
            (callerBuffers libraryInvocation)) as Hlive
    by (repeat constructor; eexists; vm_compute; reflexivity).
  destruct (setup_registers_buffers_in_order libraryInvocation freshInstance
              libraryInstance eq_refl Hlive Hrun)
    as (ccBufs & fileBufs & memBufs & _ & _ & _ & _ & _ & Hpoint & Hlib).
  split; [exact Hids |]. split; [vm_compute; reflexivity |]. split.
  - destruct (Hpoint 0 eq_refl) as (id & rest & Hhead & ->).
    rewrite Hids in Hhead. by injection Hhead as <- _.
  - rewrite (Hlib eq_refl 0), Hids. reflexivity.
Defined.

(** * The further properties at concrete inputs *)

(** X3, at an SDK the importer cannot be constructed for. *)
Lemma setup_importer_construction_fails_witness :
  getSDKPath otherSdkInvocation <> "" /\
  fst (setup otherSdkInvocation linkedInstance) = Return true /\
  Diagnostics (snd (setup otherSdkInvocation linkedInstance)) =
    [error_clang_importer_create_fail] /\
  ImportSearchPaths <$> Context (snd (setup otherSdkInvocation linkedInstance)) =
    Some ["/imports"] /\
  BufferIDs (snd (setup otherSdkInvocation linkedInstance)) = [].
Proof.
  assert (getSDKPath otherSdkInvocation <> "") as Hsdk by (vm_compute; discriminate).
  destruct (setup_importer_construction_fails otherSdkInvocation linkedInstance
              (fun args => bool_decide (argSDKPath args = "/sdk")) Hsdk)
    as (He & Hd & _ & Hpaths & Hids & _).
  - reflexivity.
  - vm_compute. reflexivity.
  - split; [exact Hsdk |]. split; [exact He |]. split; [exact Hd |].
    split; [exact Hpaths | exact Hids].
Defined.

(** X5, at a library of two files and two buffers, and at five paths of
    which one cannot be opened. *)
Lemma setup_succeeds_iff_witness :
  Forall (fun p => is_Some (Memory freshInstance !! p)) (callerBuffers libraryInvocation) /\
  fst (setup libraryInvocation freshInstance) = Return false /\
  fst (setup fivePaths freshInstance) <> Return false.
Proof.
  assert (Forall (fun p => is_Some (Memory freshInstance !! p))
            (callerBuffers libraryInvocation)) as Hlive.
  { repeat (apply List.Forall_cons; [vm_compute; by eexists |]).
    apply List.Forall_nil. }
  assert (Forall (fun p => is_Some (Memory freshInstance !! p))
            (callerBuffers fivePaths)) as Hlive5.
  { repeat (apply List.Forall_cons; [vm_compute; by eexists |]).
    apply List.Forall_nil. }
  split; [exact Hlive |]. split.
  - apply (setup_succeeds_iff libraryInvocation freshInstance Hlive);
      [reflexivity |].
    split; [vm_compute; reflexivity |]. split; [vm_compute; reflexivity |].
    repeat constructor; eexists; vm_compute; reflexivity.
  - intros Hrun.
    apply (setup_succeeds_iff fivePaths freshInstance Hlive5) in Hrun;
      [| reflexivity].
    destruct Hrun as (_ & _ & Hfiles).
    apply Forall_cons in Hfiles as [_ Hfiles].
    apply Forall_cons in Hfiles as [_ Hfiles].
    apply Forall_cons in Hfiles as [[b Hb] _].
    vm_compute in Hb. discriminate.
Defined.

(** X6, at a second [setup] of an instance that holds a buffer. *)
Lemma setup_keeps_buffers_well_formed_witness :
  buffersWellFormed mainXYZ /\
  buffersWellFormed (snd (setup libraryInvocation mainXYZ)) /\
  BufferIDs mainXYZ `prefix_of` BufferIDs (snd (setup libraryInvocation mainXYZ)).
Proof.
  assert (buffersWellFormed mainXYZ) as Hwf.
  { unfold buffersWellFormed. split_and!.
    - vm_compute. apply NoDup_singleton.
    - apply List.Forall_cons; [vm_compute; by eexists | apply List.Forall_nil].
    - vm_compute. apply NoDup_singleton.
    - apply List.Forall_cons; [vm_compute; lia | apply List.Forall_nil]. }
  destruct (setup_keeps_buffers_well_formed libraryInvocation mainXYZ Hwf)
    as (Hwf' & Hids & _).
  split; [exact Hwf |]. split; [exact Hwf' | exact Hids].
Defined.

(** X7, at the main file "xyz". *)
Lemma doIt_marks_hashbang_buffer_witness :
  Context mainXYZ <> None /\
  HashbangBufferID (SourceMgr mainXYZ) = None /\
  HashbangBufferID (SourceMgr (instance (doIt 3 mainXYZ))) = Some 0 /\
  HashbangBufferID (SourceMgr (instance (doIt 0 libraryInstance))) = None.
Proof.
  assert (Context mainXYZ = Some (default (mkASTContext [] [] ∅ []) (Context mainXYZ)))
    as Hctx by (vm_compute; reflexivity).
  assert (Context libraryInstance =
          Some (default (mkASTContext [] [] ∅ []) (Context libraryInstance)))
    as Hlib by (vm_compute; reflexivity).
  split; [by rewrite Hctx |]. split; [vm_compute; reflexivity |]. split.
  - rewrite (doIt_marks_hashbang_buffer 3 mainXYZ _ Hctx). vm_compute. reflexivity.
  - rewrite (doIt_marks_hashbang_buffer 0 libraryInstance _ Hlib).
    vm_compute. reflexivity.
Defined.

(** X8, at a REPL session. *)
Lemma doIt_repl_parses_nothing_witness :
  Context replInstance <> None /\
  getInputKind (Invocation replInstance) = REPL /\
  exit (doIt 0 replInstance) = Return tt /\
  trace (doIt 0 replInstance) = [] /\
  singleInputFile (instance (doIt 0 replInstance)) = Some (mkSourceFile REPL false []).
Proof.
  assert (Context replInstance =
          Some (default (mkASTContext [] [] ∅ []) (Context replInstance)))
    as Hctx by (vm_compute; reflexivity).
  assert (getInputKind (Invocation replInstance) = REPL) as Hkind
    by (vm_compute; reflexivity).
  destruct (doIt_repl_parses_nothing 0 replInstance _ Hctx Hkind)
    as (He & Ht & Hf & _).
  split; [by rewrite Hctx |]. split; [exact Hkind |]. split; [exact He |].
  split; [exact Ht | exact Hf].
Defined.

(** X10, at a library whose third buffer holds three declarations. *)
Lemma library_parser_returns_early_witness :
  getInputKind (Invocation linkedLibrary) = Library /\
  BufferIDs linkedLibrary = [0; 1] ++ 2 :: [3] /\
  exit (doIt 0 linkedLibrary) = AssertionFailed "Parser returned early?" /\
  parseCalls (trace (doIt 0 linkedLibrary)) = [0; 1; 2] /\
  typeCheckCalls (trace (doIt 0 linkedLibrary)) = [].
Proof.
  assert (Context linkedLibrary =
          Some (default (mkASTContext [] [] ∅ []) (Context linkedLibrary)))
    as Hctx by (vm_compute; reflexivity).
  assert (getInputKind (Invocation linkedLibrary) = Library) as Hkind
    by (vm_compute; reflexivity).
  assert (BufferIDs linkedLibrary = [0; 1] ++ 2 :: [3]) as Hids
    by (vm_compute; reflexivity).
  destruct (library_parser_returns_early 0 linkedLibrary _
              (fun BufferID =>
                 bool_decide
                   (length (bufferText (SourceMgr linkedLibrary)
                              (Memory linkedLibrary) BufferID) <= 1))
              [0; 1] 2 [3] Hctx Hkind Hids)
    as (He & Hp & Hc & _).
  - intros SF BufferID ps _. reflexivity.
  - repeat constructor; vm_compute; reflexivity.
  - vm_compute. reflexivity.
  - split; [exact Hkind |]. split; [exact Hids |]. split; [exact He |].
    split; [exact Hp | exact Hc].
Defined.

(** X11, at the main file "xyz": three iterations reach the end of the
    buffer, two do not. *)
Lemma doIt_returns_iff_parser_done_witness :
  Context mainXYZ <> None /\
  getInputKind (Invocation mainXYZ) = Main /\
  BufferIDs mainXYZ = [0] /\
  exit (doIt 3 mainXYZ) = Return tt /\
  exit (doIt 2 mainXYZ) = OutOfFuel /\
  parseCalls (trace (doIt 2 mainXYZ)) = [0; 0].
Proof.
  assert (Context mainXYZ = Some (default (mkASTContext [] [] ∅ []) (Context mainXYZ)))
    as Hctx by (vm_compute; reflexivity).
  assert (getInputKind (Invocation mainXYZ) = Main) as Hkind by (vm_compute; reflexivity).
  assert (BufferIDs mainXYZ = [0]) as Hids by (vm_compute; reflexivity).
  destruct (doIt_returns_iff_parser_done 3 mainXYZ _ 0 Hctx (or_introl Hkind) Hids)
    as (Hret & _).
  destruct (doIt_returns_iff_parser_done 2 mainXYZ _ 0 Hctx (or_introl Hkind) Hids)
    as (_ & Hout & _ & Hcalls).
  assert (exit (doIt 2 mainXYZ) = OutOfFuel) as He2.
  { apply Hout.
    intros [| [| n]] Hn; [vm_compute; reflexivity | vm_compute; reflexivity | lia]. }
  split; [by rewrite Hctx |]. split; [exact Hkind |]. split; [exact Hids |].
  split; [| split; [exact He2 | exact (Hcalls He2)]].
  apply Hret. exists 2. split; [lia | vm_compute; reflexivity].
Defined.

(** X12, at a main file with a code completion request in another
    buffer: two inputs. *)
Lemma main_needs_one_input_in_all_witness :
  BufferIDs freshInstance = [] /\
  fst (setup completionNextToFile freshInstance) = Return false /\
  length (BufferIDs (snd (setup completionNextToFile freshInstance))) = 2 /\
  exit (doIt 5 (snd (setup completionNextToFile freshInstance))) =
    AssertionFailed "This mode only allows one input".
Proof.
  assert (setup completionNextToFile freshInstance =
          (Return false, snd (setup completionNextToFile freshInstance))) as Hrun
    by (vm_compute; reflexivity).
  destruct (main_needs_one_input_in_all completionNextToFile freshInstance _ 5
              eq_refl Hrun (or_introl eq_refl)) as (Hlen & Hone).
  split; [reflexivity |]. split; [by rewrite Hrun |]. split; [exact Hlen |].
  apply Hone. vm_compute. lia.
Defined.
